(** * gcfg: configuration resolution and caching (package os/gcfg)

    A shallow embedding of [Config] and its methods [New], [SetPath],
    [AddPath], [FilePath], [filePath] and [getJson], together with the
    properties of the search path set and of the document cache.

    The packages gcfg calls into (gres, gfile, gspath, gstr, gcmd, gjson,
    gfsnotify) are collaborators: their answers are gathered in the record
    [World], over which every definition is parametrised. *)

From Stdlib Require Import ZArith Ascii String List.
From stdpp Require Import base option list strings pretty gmap.

Local Open Scope string_scope.

(** ** Strings *)

Definition dquote : string := String "034"%char EmptyString.
Definition newline : string := String "010"%char EmptyString.

(** [s == ""] and [s != ""] of Go. *)
Definition isEmpty (s : string) : bool := String.eqb s EmptyString.
Definition nonEmpty (s : string) : bool := negb (isEmpty s).

(** ** Data model *)

(** A parsed value tree, as produced by the format parsers. *)
#[local] Unset Elimination Schemes.
Inductive JValue : Type :=
| JNull
| JBool (b : bool)
| JNum (z : Z)
| JStr (s : string)
| JArr (l : list JValue)
| JObj (l : list (string * JValue)).
#[local] Set Elimination Schemes.

(** [gjson.Json]: the value tree and the violence-check flag [vc]. *)
Record Json : Type := mkJson {
  p : JValue;
  vc : bool
}.

(** [j.SetViolenceCheck(enabled)]. *)
Definition Json_SetViolenceCheck (enabled : bool) (j : Json) : Json :=
  {| p := p j; vc := enabled |}.

(** A file of the resource manager: [file.Name()], [file.FileInfo().IsDir()]
    and [file.Content()]. *)
Record ResFile : Type := mkResFile {
  Name : string;
  IsDir : bool;
  Content : string
}.

(** Go's [error]: [None] is [nil], [Some msg] an error with message [msg]. *)
Definition error : Type := option string.

Definition DefaultConfigFile : string := "config.toml".
Definition cmdEnvKey : string := "gf.gcfg".

Definition supportedFileTypes : list string :=
  ["toml"; "yaml"; "json"; "ini"; "xml"].
Definition resourceTryFiles : list string :=
  [EmptyString; "/"; "config/"; "config"; "/config"; "/config/"].

(** Configuration struct. *)
Record Config : Type := mkConfig {
  defaultName : string;
  searchPaths : list string;
  jsonMap : gmap string Json;
  violenceCheck : bool
}.

Definition set_searchPaths (l : list string) (c : Config) : Config :=
  {| defaultName := defaultName c; searchPaths := l;
     jsonMap := jsonMap c; violenceCheck := violenceCheck c |}.

Definition set_jsonMap (m : gmap string Json) (c : Config) : Config :=
  {| defaultName := defaultName c; searchPaths := searchPaths c;
     jsonMap := m; violenceCheck := violenceCheck c |}.

(** ** Collaborators *)

(** The answers of the packages gcfg calls.  A function that reports a miss
    by the empty string in Go does so here. *)
Record World : Type := mkWorld {
  (* gres: the resource manager *)
  gres_Get : string -> option ResFile;
  gres_IsEmpty : bool;
  (* gfile *)
  gfile_RealPath : string -> string;
  gfile_IsDir : string -> bool;
  gfile_Exists : string -> bool;
  gfile_MainPkgPath : string;
  gfile_SelfDir : string;
  gfile_Pwd : string;
  gfile_GetContents : string -> string;
  gfile_ExtName : string -> string;
  gfile_Separator : string;
  (* gspath.Search(root, name): the path found, without its error *)
  gspath_Search : string -> string -> string;
  (* gstr.TrimRight(str, mask) *)
  gstr_TrimRight : string -> string -> string;
  (* gcmd.GetOptWithEnv(key).String() *)
  gcmd_GetOptWithEnv : string -> string;
  (* errorPrint() of package gcfg *)
  errorPrint : bool;
  (* GetContent(name) of package gcfg: the content set inline for a name *)
  GetContent : string -> string;
  (* gjson *)
  gjson_IsValidDataType : string -> bool;
  gjson_LoadContentType : string -> string -> Json + string;
  gjson_LoadContent : string -> Json + string;
  (* gfsnotify.Add(path, callback): the error of the registration *)
  gfsnotify_Add : string -> error;
  (* intlog: whether the debug mode, under which intlog prints, is on *)
  intlog_isGFDebug : bool
}.

(** Modelled from the spec: [gres.Contains] is not among the sources; the
    overlay interface is [get(path) -> file-or-nil] and
    [contains(path) -> bool], so a path is contained when [get] finds it. *)
Definition gres_Contains (W : World) (path : string) : bool :=
  bool_decide (is_Some (gres_Get W path)).

(** ** Containers *)

(** Modelled from the spec: [garray.StrArray] is not among the sources; the
    search path set is an ordered sequence of strings.  [Search] gives the
    index of the first occurrence of a value, and -1 when there is none. *)
Fixpoint StrArray_Search_from (i : Z) (array : list string) (value : string) : Z :=
  match array with
  | [] => (-1)%Z
  | v :: rest =>
      if String.eqb v value then i
      else StrArray_Search_from (i + 1)%Z rest value
  end.

Definition StrArray_Search : list string -> string -> Z :=
  StrArray_Search_from 0%Z.

Definition StrArray_Append (array : list string) (value : string) : list string :=
  array ++ [value].

Definition StrArray_Clear (array : list string) : list string := [].

(** [gstr.InArray(a, s)]. *)
Fixpoint gstr_InArray (a : list string) (s : string) : bool :=
  match a with
  | [] => false
  | v :: rest => if String.eqb s v then true else gstr_InArray rest s
  end.

(** ** Program state *)

Inductive Level : Type := LvError | LvCritical | LvInternal.

Record LogEntry : Type := mkLog {
  level : Level;
  message : string
}.

(** A watch of gfsnotify: the watched path and the callback, which acts on
    the [Config] it has captured. *)
Record Watch : Type := mkWatch {
  wpath : string;
  wcallback : Config -> Config
}.

(** The [Config] under operation, what glog and intlog have written, and
    the watches registered with gfsnotify. *)
Record Sys : Type := mkSys {
  cfg : Config;
  logs : list LogEntry;
  watches : list Watch
}.

(** ** A state monad over [Sys] *)

Definition M (A : Type) : Type := Sys -> A * Sys.

Definition ret {A : Type} (a : A) : M A := fun s => (a, s).

Definition bind {A B : Type} (m : M A) (k : A -> M B) : M B :=
  fun s => let (a, s') := m s in k a s'.

Notation "x <- m ;; k" := (bind m (fun x => k))
  (at level 100, m at next level, right associativity).
Notation "m ;;; k" := (bind m (fun _ => k))
  (at level 100, right associativity).

Definition getCfg : M Config := fun s => (cfg s, s).

Definition modifyCfg (f : Config -> Config) : M unit :=
  fun s => (tt, {| cfg := f (cfg s); logs := logs s; watches := watches s |}).

Definition putCfg (c : Config) : M unit := modifyCfg (fun _ => c).

Definition writeLog (l : Level) (msg : string) : M unit :=
  fun s => (tt, {| cfg := cfg s; logs := logs s ++ [mkLog l msg];
                   watches := watches s |}).

Definition glog_Error : string -> M unit := writeLog LvError.
Definition glog_Critical : string -> M unit := writeLog LvCritical.

Definition addWatch (w : Watch) : M unit :=
  fun s => (tt, {| cfg := cfg s; logs := logs s; watches := watches s ++ [w] |}).

Definition when (b : bool) (m : M unit) : M unit := if b then m else ret tt.

(** [intlog.Print(v...)]: under the debug mode only, one line with the
    operands separated by spaces (the time and the caller's file that begin
    the line are not part of the entry). *)
Definition intlog_Print (W : World) (v : list string) : M unit :=
  when (intlog_isGFDebug W) (writeLog LvInternal (String.concat " " v)).

(** ** Path management *)

Section Gcfg.

Context (W : World).

(** The loop over the search paths in [SetPath] and [AddPath]:
    the first [gspath.Search(v, path)] that is not empty. *)
Fixpoint searchRelative (array : list string) (path : string) : string :=
  match array with
  | [] => EmptyString
  | v :: rest =>
      let found := gspath_Search W v path in
      if nonEmpty found then found else searchRelative rest path
  end.

(** The resolution of [path] that opens both [SetPath] and [AddPath] (the
    two bodies are the same up to the "Path not exist" check): the pair
    [(realPath, isDir)]. *)
Definition resolveDir (path : string) (array : list string) : string * bool :=
  match gres_Get W path with
  | Some file => (path, IsDir file)
  | None =>
      (* Absolute path. *)
      let realPath := gfile_RealPath W path in
      (* Relative path. *)
      let realPath :=
        if isEmpty realPath then searchRelative array path else realPath in
      let isDir := if nonEmpty realPath then gfile_IsDir W realPath else false in
      (realPath, isDir)
  end.

(** The lines ["\n%d. %s"] of an error message, numbered from [k]. *)
Fixpoint listPaths (k : nat) (array : list string) : string :=
  match array with
  | [] => EmptyString
  | v :: rest => newline +:+ pretty k +:+ ". " +:+ v +:+ listPaths (S k) rest
  end.

(** The message built in the buffer when [realPath] is empty; [op] is
    ["SetPath"] or ["AddPath"]. *)
Definition notFoundMessage (op path : string) (array : list string) : string :=
  if (0 <? length array)%nat then
    "[gcfg] " +:+ op +:+ " failed: cannot find directory " +:+ dquote +:+ path
      +:+ dquote +:+ " in following paths:" +:+ listPaths 1 array
  else
    "[gcfg] " +:+ op +:+ " failed: path " +:+ dquote +:+ path +:+ dquote
      +:+ " does not exist".

Definition notDirMessage (op path : string) : string :=
  "[gcfg] " +:+ op +:+ " failed: path " +:+ dquote +:+ path +:+ dquote
    +:+ " should be directory type".

(** SetPath sets the configuration directory path for file search. *)
Definition SetPath (path : string) : M error :=
  c <- getCfg ;;
  let (realPath, isDir) := resolveDir path (searchPaths c) in
  (* Path not exist. *)
  if isEmpty realPath then
    let err := notFoundMessage "SetPath" path (searchPaths c) in
    when (errorPrint W) (glog_Error err) ;;;
    ret (Some err)
  (* Should be a directory. *)
  else if negb isDir then
    let err := notDirMessage "SetPath" path in
    when (errorPrint W) (glog_Error err) ;;;
    ret (Some err)
  (* Repeated path check. *)
  else if negb (StrArray_Search (searchPaths c) realPath =? -1)%Z then
    ret None
  else
    modifyCfg (set_jsonMap ∅) ;;;
    modifyCfg (fun c => set_searchPaths (StrArray_Clear (searchPaths c)) c) ;;;
    modifyCfg (fun c => set_searchPaths (StrArray_Append (searchPaths c) realPath) c) ;;;
    intlog_Print W ["SetPath:"; realPath] ;;;
    ret None.

(** AddPath adds a absolute or relative path to the search paths. *)
Definition AddPath (path : string) : M error :=
  c <- getCfg ;;
  let (realPath, isDir) := resolveDir path (searchPaths c) in
  if isEmpty realPath then
    let err := notFoundMessage "AddPath" path (searchPaths c) in
    when (errorPrint W) (glog_Error err) ;;;
    ret (Some err)
  else if negb isDir then
    let err := notDirMessage "AddPath" path in
    when (errorPrint W) (glog_Error err) ;;;
    ret (Some err)
  (* Repeated path check. *)
  else if negb (StrArray_Search (searchPaths c) realPath =? -1)%Z then
    ret None
  else
    modifyCfg (fun c => set_searchPaths (StrArray_Append (searchPaths c) realPath) c) ;;;
    intlog_Print W ["AddPath:"; realPath] ;;;
    ret None.

(** New returns a new configuration management object; [file] is the
    variadic parameter.  The new object becomes the [Config] of the state. *)
Definition New (file : list string) : M Config :=
  let name :=
    match file with
    | f :: _ => f
    | [] =>
        let customFile := gcmd_GetOptWithEnv W (cmdEnvKey +:+ ".file") in
        if nonEmpty customFile then customFile else DefaultConfigFile
    end in
  putCfg {| defaultName := name; searchPaths := []; jsonMap := ∅;
            violenceCheck := false |} ;;;
  (* Customized dir path from env/cmd. *)
  (let customPath := gcmd_GetOptWithEnv W (cmdEnvKey +:+ ".path") in
   if nonEmpty customPath then
     if gfile_Exists W customPath then
       _ <- SetPath customPath ;; ret tt
     else
       when (errorPrint W)
         (glog_Error ("Configuration directory path does not exist: " +:+ customPath))
   else
     (* Dir path of main package. *)
     (let mainPath := gfile_MainPkgPath W in
      if nonEmpty mainPath && gfile_Exists W mainPath
      then _ <- AddPath mainPath ;; ret tt else ret tt) ;;;
     (* Dir path of binary. *)
     (let selfPath := gfile_SelfDir W in
      if nonEmpty selfPath && gfile_Exists W selfPath
      then _ <- AddPath selfPath ;; ret tt else ret tt) ;;;
     (* Dir path of working dir. *)
     _ <- AddPath (gfile_Pwd W) ;; ret tt) ;;;
  getCfg.

(** ** Path resolution *)

Definition getSearchPaths (c : Config) : list string :=
  let searchPaths := searchPaths c in
  let mainPkgPath := gfile_MainPkgPath W in
  if nonEmpty mainPkgPath then
    if negb (gstr_InArray searchPaths mainPkgPath)
    then mainPkgPath :: searchPaths
    else searchPaths
  else searchPaths.

(** The loop [for _, v := range resourceTryFiles] of [FilePath]: the name
    of the first file the resource manager has under [key v]. *)
Fixpoint tryResource (key : string -> string) (tries : list string) : option string :=
  match tries with
  | [] => None
  | v :: rest =>
      match gres_Get W (key v) with
      | Some file => Some (Name file)
      | None => tryResource key rest
      end
  end.

(** The loop [for _, prefix := range searchPaths] over the resource manager. *)
Fixpoint tryResourcePrefixes (searchPaths : list string) (name : string) : option string :=
  match searchPaths with
  | [] => None
  | prefix :: rest =>
      match tryResource (fun v => (prefix +:+ v) +:+ name) resourceTryFiles with
      | Some path => Some path
      | None => tryResourcePrefixes rest name
      end
  end.

(** The loop [for _, prefix := range searchPaths] over the file system. *)
Fixpoint searchFileSystem (searchPaths : list string) (name : string) : string :=
  match searchPaths with
  | [] => EmptyString
  | prefix :: rest =>
      let prefix := gstr_TrimRight W prefix "\/" in
      let path := gspath_Search W prefix name in
      if nonEmpty path then path
      else
        let path := gspath_Search W (prefix +:+ gfile_Separator W +:+ "config") name in
        if nonEmpty path then path
        else searchFileSystem rest name
  end.

(** The name a variadic [file ...string] selects, when only its presence
    counts. *)
Definition nameOf (c : Config) (file : list string) : string :=
  match file with
  | f :: _ => f
  | [] => defaultName c
  end.

(** The name selected by [len(file) > 0 && file[0] != ""]. *)
Definition nameOfNonEmpty (c : Config) (file : list string) : string :=
  match file with
  | f :: _ => if nonEmpty f then f else defaultName c
  | [] => defaultName c
  end.

(** FilePath returns the absolute path of the specified configuration file,
    and the empty string when the file does not exist. *)
Definition FilePath (file : list string) : M string :=
  c <- getCfg ;;
  let name := nameOf c file in
  let searchPaths := getSearchPaths c in
  (* Searching resource manager. *)
  let found :=
    if negb (gres_IsEmpty W) then
      match tryResource (fun v => v +:+ name) resourceTryFiles with
      | Some path => Some path
      | None => tryResourcePrefixes searchPaths name
      end
    else None in
  match found with
  | Some path => ret path
  | None =>
      (* Searching the file system. *)
      ret (searchFileSystem searchPaths name)
  end.

(** The two lines per search path of the message of [filePath]. *)
Fixpoint listCandidates (index : nat) (searchPaths : list string) : string :=
  match searchPaths with
  | [] => EmptyString
  | v :: rest =>
      let v := gstr_TrimRight W v "\/" in
      newline +:+ pretty index +:+ ". " +:+ v
        +:+ newline +:+ pretty (S index) +:+ ". "
        +:+ (v +:+ gfile_Separator W +:+ "config")
        +:+ listCandidates (S (S index)) rest
  end.

(** filePath returns the absolute configuration file path for the given
    filename, and reports a miss. *)
Definition filePath (file : list string) : M string :=
  c <- getCfg ;;
  let name := nameOf c file in
  path <- FilePath [name] ;;
  if isEmpty path then
    let searchPaths := getSearchPaths c in
    let buffer :=
      if (0 <? length searchPaths)%nat then
        "[gcfg] cannot find config file " +:+ dquote +:+ name +:+ dquote
          +:+ " in following paths:" +:+ listCandidates 1 searchPaths
      else
        "[gcfg] cannot find config file " +:+ dquote +:+ name +:+ dquote
          +:+ " with no path set/add" in
    when (errorPrint W) (glog_Error buffer) ;;;
    ret path
  else ret path.

(** Available checks and returns whether configuration of given [file] is
    available. *)
Definition Available (file : list string) : M bool :=
  c <- getCfg ;;
  let name := nameOfNonEmpty c file in
  path <- FilePath [name] ;;
  if nonEmpty path then ret true
  else if nonEmpty (GetContent W name) then ret true
  else ret false.

(** ** The document cache *)

(** Modelled from the spec: [gmap.StrAnyMap.GetOrSetFuncLock] is not among
    the sources.  Its contract is [getOrCompute(name, computeFn)]: a cached
    value is returned without running the compute step; otherwise the
    compute step runs, and its result is stored unless it is absent
    (negative results are not stored). *)
Definition GetOrSetFuncLock (key : string) (f : M (option Json)) : M (option Json) :=
  c <- getCfg ;;
  match jsonMap c !! key with
  | Some v => ret (Some v)
  | None =>
      r <- f ;;
      match r with
      | Some v =>
          modifyCfg (fun c => set_jsonMap (<[key := v]> (jsonMap c)) c) ;;;
          ret (Some v)
      | None => ret None
      end
  end.

(** [c.jsonMap.Remove(name)], the body of the callback given to gfsnotify. *)
Definition evict (name : string) (c : Config) : Config :=
  set_jsonMap (delete name (jsonMap c)) c.

(** The choice of the parser in [getJson]. *)
Definition loadContent (name : string) (isFromConfigContent : bool)
    (content : string) : Json + string :=
  let dataType := gfile_ExtName W name in
  if gjson_IsValidDataType W dataType && negb isFromConfigContent then
    gjson_LoadContentType W dataType content
  else
    gjson_LoadContent W content.

(** The second half of the function given to [GetOrSetFuncLock] in
    [getJson], from the parsing on: [filePath] is empty when the content is
    the configured one. *)
Definition loadAndWatch (name : string) (isFromConfigContent : bool)
    (filePath content : string) : M (option Json) :=
  c <- getCfg ;;
  match loadContent name isFromConfigContent content with
  | inl j =>
      let j := Json_SetViolenceCheck (violenceCheck c) j in
      (* Add monitor for this configuration file. *)
      (if nonEmpty filePath && negb (gres_Contains W filePath) then
         match gfsnotify_Add W filePath with
         | None => addWatch {| wpath := filePath; wcallback := evict name |}
         | Some err => when (errorPrint W) (glog_Error err)
         end
       else ret tt) ;;;
      ret (Some j)
  | inr err =>
      when (errorPrint W)
        (if nonEmpty filePath then
           glog_Critical ("[gcfg] Load config file " +:+ dquote +:+ filePath
                            +:+ dquote +:+ " failed: " +:+ err)
         else
           glog_Critical ("[gcfg] Load configuration failed: " +:+ err)) ;;;
      ret None
  end.

(** The function given to [GetOrSetFuncLock] in [getJson]: the compute
    step of the cache. *)
Definition compute (name : string) : M (option Json) :=
  (* The configured content can be any kind of data type different from
     its file type. *)
  let content := GetContent W name in
  if isEmpty content then
    path <- filePath [name] ;;
    if isEmpty path then ret None
    else
      let content :=
        match gres_Get W path with
        | Some file => Content file
        | None => gfile_GetContents W path
        end in
      loadAndWatch name false path content
  else
    loadAndWatch name true EmptyString content.

(** getJson returns a [Json] object for the specified [file] content, and
    [None] (nil) if any error occurs. *)
Definition getJson (file : list string) : M (option Json) :=
  c <- getCfg ;;
  let name := nameOfNonEmpty c file in
  GetOrSetFuncLock name (compute name).

(** ** Resolution order, in the words of the specification *)

(** The first element of a list on which [f] answers. *)
Fixpoint firstHit {A B : Type} (f : A -> option B) (l : list A) : option B :=
  match l with
  | [] => None
  | a :: rest =>
      match f a with
      | Some b => Some b
      | None => firstHit f rest
      end
  end.

(** A name under each of the conventional prefixes. *)
Definition withPrefixes (name : string) : list string :=
  [name; "/" +:+ name; "config/" +:+ name; "config" +:+ name;
   "/config" +:+ name; "/config/" +:+ name].

(** The keys probed in the overlay: the prefixed names, then the same with
    each search directory in front. *)
Definition overlayProbes (dirs : list string) (name : string) : list string :=
  withPrefixes name
    ++ flat_map (fun dir => map (fun k => dir +:+ k) (withPrefixes name)) dirs.

(** The directories searched in the file system: each search directory
    with its trailing separators trimmed, then its config subdirectory. *)
Definition fileSystemProbes (dirs : list string) : list string :=
  flat_map (fun dir =>
    let d := gstr_TrimRight W dir "\/" in
    [d; d +:+ gfile_Separator W +:+ "config"]) dirs.

Definition overlayHit (key : string) : option string :=
  Name <$> gres_Get W key.

Definition fileSystemHit (name root : string) : option string :=
  let path := gspath_Search W root name in
  if nonEmpty path then Some path else None.

(** Overlay first when it is not empty, then the file system, then the
    empty string. *)
Definition resolve (dirs : list string) (name : string) : string :=
  match (if gres_IsEmpty W then None
         else firstHit overlayHit (overlayProbes dirs name)) with
  | Some path => path
  | None => default EmptyString (firstHit (fileSystemHit name) (fileSystemProbes dirs))
  end.

End Gcfg.

Arguments firstHit {A B} f l.

(** The two operations on the search path set. *)
Inductive PathOp : Type := OpAddPath | OpSetPath.

(** ** Concrete worlds *)

(** A small file system: a list of directories and a list of files with
    their contents, every path being its own real path.  It instantiates
    the collaborators wherever a property is run on an input. *)
Module Toy.

Fixpoint dropTrailing (mask : list ascii) (rev_s : list ascii) : list ascii :=
  match rev_s with
  | [] => []
  | a :: rest =>
      if existsb (Ascii.eqb a) mask then dropTrailing mask rest else rev_s
  end.

Definition TrimRight (str mask : string) : string :=
  string_of_list_ascii
    (rev (dropTrailing (list_ascii_of_string mask)
                       (rev (list_ascii_of_string str)))).

(** The part of a name after its last dot. *)
Fixpoint extFrom (s : string) (acc : option string) : string :=
  match s with
  | EmptyString => default EmptyString acc
  | String a rest =>
      if Ascii.eqb a "."%char then extFrom rest (Some rest)
      else extFrom rest acc
  end.

Definition ExtName (name : string) : string := extFrom name None.

Definition member (x : string) (l : list string) : bool :=
  existsb (String.eqb x) l.

Fixpoint assoc {A : Type} (k : string) (l : list (string * A)) : option A :=
  match l with
  | [] => None
  | (k', a) :: rest => if String.eqb k k' then Some a else assoc k rest
  end.

Definition orEmpty (b : bool) (s : string) : string :=
  if b then s else EmptyString.

Definition parse (tag content : string) : Json + string :=
  if String.eqb content "{" then inr "unexpected end of input"
  else inl {| p := JObj [(tag, JStr content)]; vc := false |}.

Record Setup : Type := mkSetup {
  dirs : list string;
  files : list (string * string);
  resources : list (string * ResFile);
  inline : list (string * string);
  mainPkg : string;
  customPath : string;
  printErrors : bool;
  watchError : error
}.

Definition world (t : Setup) : World :=
  let present path := member path (dirs t) || member path (map fst (files t)) in
  {| gres_Get := fun path => assoc path (resources t);
     gres_IsEmpty := match resources t with [] => true | _ => false end;
     gfile_RealPath := fun path => orEmpty (present path) path;
     gfile_IsDir := fun path => member path (dirs t);
     gfile_Exists := present;
     gfile_MainPkgPath := mainPkg t;
     gfile_SelfDir := EmptyString;
     gfile_Pwd := "/pwd";
     gfile_GetContents := fun path => default EmptyString (assoc path (files t));
     gfile_ExtName := ExtName;
     gfile_Separator := "/";
     gspath_Search := fun root name =>
       orEmpty (present (root +:+ "/" +:+ name)) (root +:+ "/" +:+ name);
     gstr_TrimRight := TrimRight;
     gcmd_GetOptWithEnv := fun key =>
       orEmpty (String.eqb key "gf.gcfg.path") (customPath t);
     errorPrint := printErrors t;
     GetContent := fun name => default EmptyString (assoc name (inline t));
     gjson_IsValidDataType := fun t => member t supportedFileTypes;
     gjson_LoadContentType := fun t content => parse t content;
     gjson_LoadContent := fun content => parse "auto" content;
     gfsnotify_Add := fun _ => watchError t;
     intlog_isGFDebug := true |}.

Definition fresh (l : list string) : Sys :=
  {| cfg := {| defaultName := DefaultConfigFile; searchPaths := l;
               jsonMap := ∅; violenceCheck := false |};
     logs := []; watches := [] |}.

Definition doc (tag content : string) : Json :=
  {| p := JObj [(tag, JStr content)]; vc := false |}.

(** Two roots holding the same file name, and a main package directory
    holding it too. *)
Definition twoRoots (main : string) : Setup :=
  {| dirs := ["/a"; "/b"; "/main"; "/pwd"];
     files := [("/a/app.json", "1"); ("/b/app.json", "2");
               ("/main/app.json", "3"); ("/a/notes", "n")];
     resources := []; inline := []; mainPkg := main;
     customPath := EmptyString; printErrors := true; watchError := None |}.

(** The two roots without a main package directory, and with one. *)
Definition plain : World := world (twoRoots EmptyString).
Definition withMain : World := world (twoRoots "/main").

Definition mixedOps : list (PathOp * string) :=
  [(OpAddPath, "/a"); (OpAddPath, "/a"); (OpSetPath, "/missing");
   (OpAddPath, "/a/notes"); (OpSetPath, "/pwd")].

End Toy.

(** ** Notions and inputs of the properties *)

(** One call of [AddPath] or [SetPath]. *)
Definition runOp (W : World) (op : PathOp) (path : string) : M error :=
  match op with
  | OpAddPath => AddPath W path
  | OpSetPath => SetPath W path
  end.

(** A sequence of path operations, their errors dropped. *)
Fixpoint runOps (W : World) (ops : list (PathOp * string)) (s : Sys) : Sys :=
  match ops with
  | [] => s
  | (op, path) :: rest => runOps W rest (snd (runOp W op path s))
  end.

(** No empty entry and no entry twice. *)
Definition wellFormed (array : list string) : Prop :=
  NoDup array /\ EmptyString ∉ array.

(** Unfolding of the monad and of its primitive actions. *)
Ltac run := unfold bind, getCfg, modifyCfg, putCfg, glog_Error,
  glog_Critical, intlog_Print, when, ret, writeLog, addWatch; simpl.

(** A computation keeps a property of the state. *)
Definition preserves {A : Type} (P : Sys -> Prop) (m : M A) : Prop :=
  forall s, P s -> P (snd (m s)).

(** The search path set of the state is well formed. *)
Definition wellFormedSys (s : Sys) : Prop := wellFormed (searchPaths (cfg s)).

(** The state after fetching [app.json] under the set [/b; /a]: the
    document of [/b/app.json] is cached. *)
Definition fetchedUnderB : Sys :=
  snd (getJson Toy.plain ["app.json"] (Toy.fresh ["/b"; "/a"])).

(** An overlay that holds the name both under [config/] and under the
    search directory [/a]: the conventional prefix comes first. *)
Definition bundled : World :=
  Toy.world
    {| Toy.dirs := ["/a"]; Toy.files := [("/a/app.json", "1")];
       Toy.resources :=
         [("/a/app.json", mkResFile "/a/app.json" false "r1");
          ("config/app.json", mkResFile "config/app.json" false "r2")];
       Toy.inline := []; Toy.mainPkg := EmptyString;
       Toy.customPath := EmptyString; Toy.printErrors := true;
       Toy.watchError := None |}.

(** The two roots, with a malformed [/a/app.json]. *)
Definition malformed : World :=
  Toy.world
    {| Toy.dirs := ["/a"; "/b"; "/pwd"];
       Toy.files := [("/a/app.json", "{"); ("/b/app.json", "2")];
       Toy.resources := []; Toy.inline := []; Toy.mainPkg := EmptyString;
       Toy.customPath := EmptyString; Toy.printErrors := true;
       Toy.watchError := None |}.

(** The two roots, where gfsnotify refuses every watch and error printing
    is switched off. *)
Definition unwatchedQuiet : World :=
  Toy.world
    {| Toy.dirs := ["/a"; "/b"; "/pwd"];
       Toy.files := [("/a/app.json", "1"); ("/b/app.json", "2")];
       Toy.resources := []; Toy.inline := []; Toy.mainPkg := EmptyString;
       Toy.customPath := EmptyString; Toy.printErrors := false;
       Toy.watchError := Some "too many open files" |}.

(** The document a parser result becomes: the violence check of the
    [Config] set on it, or nothing. *)
Definition parsed (c : Config) (r : Json + string) : option Json :=
  match r with
  | inl j => Some (Json_SetViolenceCheck (violenceCheck c) j)
  | inr _ => None
  end.

(** The content behind a resolved path: from the overlay when the overlay
    has the path, from the file system otherwise. *)
Definition contentOf (W : World) (path : string) : string :=
  match gres_Get W path with
  | Some file => Content file
  | None => gfile_GetContents W path
  end.

(** The two roots with a file without a known extension and with inline
    content for [inline.json]. *)
Definition mixedSources : World :=
  Toy.world
    {| Toy.dirs := ["/a"];
       Toy.files := [("/a/app.json", "1"); ("/a/app.conf", "2")];
       Toy.resources := []; Toy.inline := [("inline.json", "3")];
       Toy.mainPkg := EmptyString; Toy.customPath := EmptyString;
       Toy.printErrors := true; Toy.watchError := None |}.


(** ** The rest of the facade *)

Definition set_violenceCheck (check : bool) (c : Config) : Config :=
  {| defaultName := defaultName c; searchPaths := searchPaths c;
     jsonMap := jsonMap c; violenceCheck := check |}.

Definition set_defaultName (name : string) (c : Config) : Config :=
  {| defaultName := name; searchPaths := searchPaths c;
     jsonMap := jsonMap c; violenceCheck := violenceCheck c |}.

(** Modelled from the spec: [Config.Clear] is not among the sources; it is
    the eviction "clear all keys", used by the violence-check flag flip. *)
Definition Clear : M unit := modifyCfg (set_jsonMap ∅).

(** SetViolenceCheck sets whether to perform hierarchical conflict
    checking. *)
Definition SetViolenceCheck (check : bool) : M unit :=
  modifyCfg (set_violenceCheck check) ;;;
  Clear.

(** SetFileName sets the default configuration file name. *)
Definition SetFileName (name : string) : M Config :=
  modifyCfg (set_defaultName name) ;;;
  getCfg.

(** GetFileName returns the default configuration file name. *)
Definition GetFileName : M string :=
  c <- getCfg ;;
  ret (defaultName c).

(** Modelled from the spec: gfsnotify is not among the sources; its
    contract is [watch(path, onChange)].  A change event for [path] runs
    the callback of every watch registered on [path]. *)
Definition fireEvent (path : string) : M unit :=
  fun s =>
    (tt, {| cfg := fold_left (fun c w =>
                     if String.eqb (wpath w) path then wcallback w c else c)
                   (watches s) (cfg s);
            logs := logs s; watches := watches s |}).

(** The loop of [Instance] (main3.go) over the supported file types: the
    first available file becomes the default file name. *)
Fixpoint pickFileName (W : World) (key : string) (types : list string) : M unit :=
  match types with
  | [] => ret tt
  | fileType :: rest =>
      let file := key +:+ "." +:+ fileType in
      ok <- Available W [file] ;;
      if ok then (_ <- SetFileName file ;; ret tt)
      else pickFileName W key rest
  end.

(** [Instance] of main3.go.  The map [instances] is created by the call
    itself, so the key is never found in it and the function given to
    [GetOrSetFuncLock] always runs.  The result carries the lines written
    to the standard output. *)
Definition Instance (W : World) (name : list string) : M (list string * Config) :=
  let key :=
    match name with
    | n :: _ => if nonEmpty n then n else "config"
    | [] => "config"
    end in
  _ <- New W [] ;;
  _ <- SetPath W "./config/dev/" ;;
  pickFileName W key supportedFileTypes ;;;
  c <- getCfg ;;
  ret (["8899"], c).

(** The calls a user of a [Config] makes, and the change events gfsnotify
    delivers. *)
Inductive Call : Type :=
| CallAddPath (path : string)
| CallSetPath (path : string)
| CallSetViolenceCheck (check : bool)
| CallSetFileName (name : string)
| CallFilePath (file : list string)
| CallAvailable (file : list string)
| CallGetJson (file : list string)
| CallEvent (path : string).

Definition runCall (W : World) (call : Call) (s : Sys) : Sys :=
  match call with
  | CallAddPath path => snd (AddPath W path s)
  | CallSetPath path => snd (SetPath W path s)
  | CallSetViolenceCheck check => snd (SetViolenceCheck check s)
  | CallSetFileName name => snd (SetFileName name s)
  | CallFilePath file => snd (FilePath W file s)
  | CallAvailable file => snd (Available W file s)
  | CallGetJson file => snd (getJson W file s)
  | CallEvent path => snd (fireEvent path s)
  end.

Definition runCalls (W : World) (calls : list Call) (s : Sys) : Sys :=
  fold_left (fun s call => runCall W call s) calls s.

(** Every cached document carries the violence-check flag of the
    [Config]. *)
Definition flagCoherent (c : Config) : Prop :=
  forall name j, jsonMap c !! name = Some j -> vc j = violenceCheck c.

(** Every registered callback is the eviction of one name. *)
Definition evictingWatches (s : Sys) : Prop :=
  forall w, w ∈ watches s -> exists name, wcallback w = evict name.

Definition coherent (s : Sys) : Prop :=
  flagCoherent (cfg s) /\ wellFormed (searchPaths (cfg s)) /\ evictingWatches s.

(** The configuration directory of main3.go, holding [proxy.yaml] and
    [proxy.xml]; the content of [proxy.yaml] is given by [yaml]. *)
Definition devSetup (yaml : string) : World :=
  Toy.world
    {| Toy.dirs := ["./config/dev/"; "/pwd"];
       Toy.files := [("./config/dev/proxy.yaml", yaml);
                     ("./config/dev/proxy.xml", "x")];
       Toy.resources := []; Toy.inline := []; Toy.mainPkg := EmptyString;
       Toy.customPath := EmptyString; Toy.printErrors := true;
       Toy.watchError := None |}.

(** The directory [/a] with [sub] inside, reachable by the relative path
    [sub]. *)
Definition nested : World :=
  Toy.world
    {| Toy.dirs := ["/a"; "/a/sub"]; Toy.files := [("/a/sub/app.json", "1")];
       Toy.resources := []; Toy.inline := []; Toy.mainPkg := EmptyString;
       Toy.customPath := EmptyString; Toy.printErrors := true;
       Toy.watchError := None |}.

(** The file in the config subdirectory of [/a] and directly in [/b]. *)
Definition configFirst : World :=
  Toy.world
    {| Toy.dirs := ["/a"; "/a/config"; "/b"];
       Toy.files := [("/a/config/app.json", "1"); ("/b/app.json", "2")];
       Toy.resources := []; Toy.inline := []; Toy.mainPkg := EmptyString;
       Toy.customPath := EmptyString; Toy.printErrors := true;
       Toy.watchError := None |}.

(** The two roots and the main package directory [/main], which alone
    holds [only.json]. *)
Definition mainOnly : World :=
  Toy.world
    {| Toy.dirs := ["/a"; "/b"; "/main"];
       Toy.files := [("/a/app.json", "1"); ("/main/only.json", "m")];
       Toy.resources := []; Toy.inline := []; Toy.mainPkg := "/main";
       Toy.customPath := EmptyString; Toy.printErrors := true;
       Toy.watchError := None |}.


(** * Properties *)

(** ** Strings and the search array *)

Lemma isEmpty_true (s : string) : isEmpty s = true <-> s = EmptyString.
Proof. unfold isEmpty. apply String.eqb_eq. Qed.

Lemma isEmpty_false (s : string) : isEmpty s = false <-> s <> EmptyString.
Proof. unfold isEmpty. apply String.eqb_neq. Qed.

Lemma nonEmpty_true (s : string) : nonEmpty s = true <-> s <> EmptyString.
Proof.
  unfold nonEmpty. rewrite negb_true_iff. apply isEmpty_false.
Qed.

Lemma nonEmpty_false (s : string) : nonEmpty s = false <-> s = EmptyString.
Proof.
  unfold nonEmpty. rewrite negb_false_iff. apply isEmpty_true.
Qed.

Lemma StrArray_Search_from_absent (array : list string) (value : string) (i : Z) :
  value ∉ array -> StrArray_Search_from i array value = (-1)%Z.
Proof.
  revert i. induction array as [|v rest IH]; intros i Hni; simpl; [done|].
  apply not_elem_of_cons in Hni as [Hne Hni].
  destruct (String.eqb_spec v value) as [->|_]; [done|]. by apply IH.
Qed.

Lemma StrArray_Search_from_present (array : list string) (value : string) (i : Z) :
  value ∈ array -> (i <= StrArray_Search_from i array value)%Z.
Proof.
  revert i. induction array as [|v rest IH]; intros i Hin; simpl.
  - by apply elem_of_nil in Hin.
  - destruct (String.eqb_spec v value) as [->|Hne]; [lia|].
    apply elem_of_cons in Hin as [->|Hin]; [done|].
    specialize (IH (i + 1)%Z Hin). lia.
Qed.

(** [Search] answers -1 exactly for the values that are not in the array. *)
Lemma StrArray_Search_absent (array : list string) (value : string) :
  (StrArray_Search array value =? -1)%Z = true <-> value ∉ array.
Proof.
  unfold StrArray_Search. rewrite Z.eqb_eq. split.
  - intros Heq Hin. apply (StrArray_Search_from_present _ _ 0%Z) in Hin. lia.
  - apply StrArray_Search_from_absent.
Qed.

Lemma StrArray_Search_present (array : list string) (value : string) :
  (StrArray_Search array value =? -1)%Z = false <-> value ∈ array.
Proof.
  rewrite <- not_true_iff_false, StrArray_Search_absent.
  destruct (decide (value ∈ array)) as [Hin|Hni]; tauto.
Qed.

Lemma gstr_InArray_spec (a : list string) (s : string) :
  gstr_InArray a s = true <-> s ∈ a.
Proof.
  induction a as [|v rest IH]; simpl.
  - split; [done|]. intros H. by apply elem_of_nil in H.
  - rewrite elem_of_cons. destruct (String.eqb_spec s v) as [->|Hne].
    + split; auto.
    + rewrite IH. split; [auto|]. intros [Heq|Hin]; [congruence|done].
Qed.

(** ** The search path set under [AddPath] and [SetPath] *)

(** What [SetPath] does, by the four cases of its body. *)
Lemma SetPath_cases (W : World) (path : string) (s : Sys) :
  let array := searchPaths (cfg s) in
  let realPath := fst (resolveDir W path array) in
  let isDir := snd (resolveDir W path array) in
  (fst (SetPath W path s) <> None /\ cfg (snd (SetPath W path s)) = cfg s /\
     watches (snd (SetPath W path s)) = watches s /\
     (realPath = EmptyString \/ isDir = false))
  \/ (SetPath W path s = (None, s) /\ realPath <> EmptyString /\ isDir = true /\
      realPath ∈ array)
  \/ (fst (SetPath W path s) = None /\ realPath <> EmptyString /\ isDir = true /\
      (realPath ∉ array) /\
      cfg (snd (SetPath W path s)) =
        set_searchPaths [realPath] (set_jsonMap ∅ (cfg s)) /\
      watches (snd (SetPath W path s)) = watches s).
Proof.
  intros array realPath isDir. subst array realPath isDir.
  unfold SetPath. run.
  destruct (resolveDir W path (searchPaths (cfg s))) as [realPath isDir]; simpl.
  destruct (isEmpty realPath) eqn:He.
  { left. destruct (errorPrint W); simpl; repeat split; auto.
    all: left; by apply isEmpty_true. }
  apply isEmpty_false in He.
  destruct isDir; simpl.
  2:{ left. destruct (errorPrint W); simpl; repeat split; auto. }
  destruct (StrArray_Search (searchPaths (cfg s)) realPath =? -1)%Z eqn:Hs; simpl.
  - right; right. apply StrArray_Search_absent in Hs.
    destruct (intlog_isGFDebug W); simpl; repeat split; auto.
  - right; left. apply StrArray_Search_present in Hs. repeat split; auto.
Qed.

(** What [AddPath] does, by the four cases of its body. *)
Lemma AddPath_cases (W : World) (path : string) (s : Sys) :
  let array := searchPaths (cfg s) in
  let realPath := fst (resolveDir W path array) in
  let isDir := snd (resolveDir W path array) in
  (fst (AddPath W path s) <> None /\ cfg (snd (AddPath W path s)) = cfg s /\
     watches (snd (AddPath W path s)) = watches s /\
     (realPath = EmptyString \/ isDir = false))
  \/ (AddPath W path s = (None, s) /\ realPath <> EmptyString /\ isDir = true /\
      realPath ∈ array)
  \/ (fst (AddPath W path s) = None /\ realPath <> EmptyString /\ isDir = true /\
      (realPath ∉ array) /\
      cfg (snd (AddPath W path s)) = set_searchPaths (array ++ [realPath]) (cfg s) /\
      watches (snd (AddPath W path s)) = watches s).
Proof.
  intros array realPath isDir. subst array realPath isDir.
  unfold AddPath. run.
  destruct (resolveDir W path (searchPaths (cfg s))) as [realPath isDir]; simpl.
  destruct (isEmpty realPath) eqn:He.
  { left. destruct (errorPrint W); simpl; repeat split; auto.
    all: left; by apply isEmpty_true. }
  apply isEmpty_false in He.
  destruct isDir; simpl.
  2:{ left. destruct (errorPrint W); simpl; repeat split; auto. }
  destruct (StrArray_Search (searchPaths (cfg s)) realPath =? -1)%Z eqn:Hs; simpl.
  - right; right. apply StrArray_Search_absent in Hs.
    destruct (intlog_isGFDebug W); simpl; repeat split; auto.
  - right; left. apply StrArray_Search_present in Hs. repeat split; auto.
Qed.

Lemma runOp_cases (W : World) (op : PathOp) (path : string) (s : Sys) :
  let array := searchPaths (cfg s) in
  let realPath := fst (resolveDir W path array) in
  let s' := snd (runOp W op path s) in
  (fst (runOp W op path s) <> None /\ cfg s' = cfg s)
  \/ (fst (runOp W op path s) = None /\ s' = s /\ realPath ∈ array)
  \/ (fst (runOp W op path s) = None /\ realPath <> EmptyString /\
      (realPath ∉ array) /\
      searchPaths (cfg s') =
        match op with
        | OpAddPath => (array ++ [realPath])%list
        | OpSetPath => [realPath]
        end).
Proof.
  destruct op; simpl.
  - destruct (AddPath_cases W path s) as [(?&?&?&?)|[(E&?&?&?)|(?&?&?&?&E&?)]].
    + left; auto.
    + right; left. rewrite E; auto.
    + right; right. rewrite E; auto.
  - destruct (SetPath_cases W path s) as [(?&?&?&?)|[(E&?&?&?)|(?&?&?&?&E&?)]].
    + left; auto.
    + right; left. rewrite E; auto.
    + right; right. rewrite E; auto.
Qed.

Lemma runOp_wellFormed (W : World) (op : PathOp) (path : string) (s : Sys) :
  wellFormed (searchPaths (cfg s)) ->
  wellFormed (searchPaths (cfg (snd (runOp W op path s)))).
Proof.
  intros [Hnd Hne].
  destruct (runOp_cases W op path s) as [(_&E)|[(_&E&_)|(_&Hr&Hni&E)]].
  - rewrite E. by split.
  - rewrite E. by split.
  - rewrite E. destruct op; split.
    + apply NoDup_app. repeat split; auto.
      * intros x Hx Hx'. apply list_elem_of_singleton in Hx'. by subst x.
      * apply NoDup_singleton.
    + rewrite elem_of_app, list_elem_of_singleton. intros [H|H]; [done|]. by apply Hr.
    + apply NoDup_singleton.
    + rewrite list_elem_of_singleton. intros H. by apply Hr.
Qed.

Lemma runOps_wellFormed (W : World) (ops : list (PathOp * string)) (s : Sys) :
  wellFormed (searchPaths (cfg s)) ->
  wellFormed (searchPaths (cfg (runOps W ops s))).
Proof.
  revert s. induction ops as [|[op path] rest IH]; intros s Hwf; simpl; [done|].
  apply IH. by apply runOp_wellFormed.
Qed.

Lemma wellFormed_nil : wellFormed [].
Proof.
  split; [apply NoDup_nil_2|]. intros H. by apply elem_of_nil in H.
Qed.

(** Running a [bind], and properties of the state that a computation
    keeps. *)
Lemma bind_run {A B : Type} (m : M A) (k : A -> M B) (s : Sys) :
  bind m k s = k (fst (m s)) (snd (m s)).
Proof. unfold bind. by destruct (m s). Qed.

Lemma preserves_ret {A : Type} (P : Sys -> Prop) (a : A) : preserves P (ret a).
Proof. by intros s. Qed.

Lemma preserves_bind {A B : Type} (P : Sys -> Prop) (m : M A) (k : A -> M B) :
  preserves P m -> (forall a, preserves P (k a)) -> preserves P (bind m k).
Proof.
  intros Hm Hk s Hs. rewrite bind_run. apply Hk, Hm, Hs.
Qed.

Lemma preserves_if {A : Type} (P : Sys -> Prop) (b : bool) (m1 m2 : M A) :
  preserves P m1 -> preserves P m2 -> preserves P (if b then m1 else m2).
Proof. by destruct b. Qed.

Lemma preserves_writeLog (P : Sys -> Prop) (l : Level) (msg : string) :
  (forall s logs', P s -> P {| cfg := cfg s; logs := logs'; watches := watches s |}) ->
  preserves P (writeLog l msg).
Proof. intros H s Hs. apply H, Hs. Qed.

Lemma preserves_when (P : Sys -> Prop) (b : bool) (m : M unit) :
  preserves P m -> preserves P (when b m).
Proof. intros H. destruct b; [done|]. apply preserves_ret. Qed.

Lemma AddPath_preserves_wellFormed (W : World) (path : string) :
  preserves wellFormedSys (AddPath W path).
Proof. intros s. apply (runOp_wellFormed W OpAddPath). Qed.

Lemma SetPath_preserves_wellFormed (W : World) (path : string) :
  preserves wellFormedSys (SetPath W path).
Proof. intros s. apply (runOp_wellFormed W OpSetPath). Qed.

(** [New] is a fresh [Config] followed by path operations. *)
Lemma New_wellFormed (W : World) (file : list string) (s : Sys) :
  wellFormed (searchPaths (fst (New W file s))).
Proof.
  unfold New. rewrite bind_run. cbv beta. rewrite bind_run. cbv beta.
  unfold getCfg at 1. cbn [fst].
  match goal with |- wellFormed (searchPaths (cfg (snd (?m ?s0)))) =>
    change (wellFormedSys (snd (m s0)));
    cut (preserves wellFormedSys m); [intros Hm; apply Hm, wellFormed_nil|]
  end.
  unfold glog_Error.
  repeat first
    [ apply SetPath_preserves_wellFormed | apply AddPath_preserves_wellFormed
    | apply preserves_ret | apply preserves_when
    | (apply preserves_writeLog; intros ? ? ?; assumption)
    | apply preserves_if | apply preserves_bind; [|intros ?] ].
Qed.

(** C6: whenever [AddPath] or [SetPath] returns an error, the search path
    set is the one before the call. *)
Theorem failed_path_op_keeps_searchPaths
    (W : World) (op : PathOp) (path : string) (s : Sys) (msg : string) :
  fst (runOp W op path s) = Some msg ->
  searchPaths (cfg (snd (runOp W op path s))) = searchPaths (cfg s).
Proof.
  intros Herr.
  destruct (runOp_cases W op path s) as [(_&E)|[(Hok&_)|(Hok&_)]].
  - by rewrite E.
  - rewrite Hok in Herr. discriminate.
  - rewrite Hok in Herr. discriminate.
Qed.

(** [SetPath] on a file and [AddPath] on a missing path both fail and leave
    the two search paths in place. *)
Lemma failed_path_op_keeps_searchPaths_witness :
  searchPaths (cfg (snd (runOp Toy.plain OpSetPath
                           "/a/notes" (Toy.fresh ["/a"; "/b"])))) = ["/a"; "/b"]
  /\ searchPaths (cfg (snd (runOp Toy.plain OpAddPath
                              "/missing" (Toy.fresh ["/a"; "/b"])))) = ["/a"; "/b"].
Proof.
  split.
  - apply (failed_path_op_keeps_searchPaths _ OpSetPath "/a/notes" (Toy.fresh ["/a"; "/b"])
             (notDirMessage "SetPath" "/a/notes")).
    vm_compute. reflexivity.
  - apply (failed_path_op_keeps_searchPaths _ OpAddPath "/missing" (Toy.fresh ["/a"; "/b"])
             (notFoundMessage "AddPath" "/missing" ["/a"; "/b"])).
    vm_compute. reflexivity.
Defined.

(** ** Path resolution *)

Lemma append_assoc (a b c : string) : (a +:+ b) +:+ c = a +:+ (b +:+ c).
Proof.
  induction a as [|x a IH]; [done|].
  change (String x ((a +:+ b) +:+ c) = String x (a +:+ (b +:+ c))).
  by rewrite IH.
Qed.

Lemma firstHit_app {A B : Type} (f : A -> option B) (l1 l2 : list A) :
  firstHit f (l1 ++ l2) =
    match firstHit f l1 with
    | Some b => Some b
    | None => firstHit f l2
    end.
Proof.
  induction l1 as [|a l1 IH]; simpl; [done|]. by destruct (f a).
Qed.

Lemma firstHit_None {A B : Type} (f : A -> option B) (l : list A) :
  firstHit f l = None <-> forall a, a ∈ l -> f a = None.
Proof.
  induction l as [|a l IH]; simpl.
  - split; [|done]. intros _ a Ha. by apply elem_of_nil in Ha.
  - destruct (f a) eqn:Ha.
    + split; [done|]. intros H. rewrite <- Ha. apply H. left.
    + rewrite IH. split.
      * intros H x Hx. apply elem_of_cons in Hx as [->|Hx]; auto.
      * intros H x Hx. apply H. by right.
Qed.

Section Resolution.

Context (W : World).

Lemma tryResource_firstHit (key : string -> string) (tries : list string) :
  tryResource W key tries = firstHit (overlayHit W) (map key tries).
Proof.
  induction tries as [|v rest IH]; simpl; [done|].
  unfold overlayHit at 1. destruct (gres_Get W (key v)); simpl; [done|apply IH].
Qed.

Lemma tryResourcePrefixes_firstHit (dirs : list string) (name : string) :
  tryResourcePrefixes W dirs name =
    firstHit (overlayHit W)
      (flat_map (fun dir => map (fun k => dir +:+ k) (withPrefixes name)) dirs).
Proof.
  induction dirs as [|prefix rest IH]; [done|].
  cbn [tryResourcePrefixes flat_map]. rewrite firstHit_app, <- IH.
  rewrite tryResource_firstHit.
  replace (map (fun v => (prefix +:+ v) +:+ name) resourceTryFiles)
    with (map (fun k => prefix +:+ k) (withPrefixes name)); [done|].
  unfold withPrefixes, resourceTryFiles. cbn [map].
  by rewrite !append_assoc.
Qed.

Lemma searchFileSystem_firstHit (dirs : list string) (name : string) :
  searchFileSystem W dirs name =
    default EmptyString (firstHit (fileSystemHit W name) (fileSystemProbes W dirs)).
Proof.
  induction dirs as [|prefix rest IH]; [done|].
  cbn [searchFileSystem fileSystemProbes flat_map app firstHit].
  unfold fileSystemHit at 1 2.
  destruct (nonEmpty (gspath_Search W (gstr_TrimRight W prefix "\/") name)); [done|].
  destruct (nonEmpty (gspath_Search W _ name)); [done|]. apply IH.
Qed.

(** [FilePath] probes in the order of [resolve] and leaves the state as it
    is. *)
Lemma FilePath_resolve (file : list string) (s : Sys) :
  FilePath W file s =
    (resolve W (getSearchPaths W (cfg s)) (nameOf (cfg s) file), s).
Proof.
  unfold FilePath, resolve, overlayProbes. rewrite bind_run. unfold getCfg. cbn [fst snd].
  rewrite firstHit_app, tryResource_firstHit, tryResourcePrefixes_firstHit,
    searchFileSystem_firstHit.
  change (map (fun v => v +:+ nameOf (cfg s) file) resourceTryFiles)
    with (withPrefixes (nameOf (cfg s) file)).
  destruct (gres_IsEmpty W); cbn [negb]; [done|].
  destruct (firstHit (overlayHit W) (withPrefixes _)); [done|].
  by destruct (firstHit (overlayHit W) (flat_map _ _)).
Qed.

(** [filePath] finds what [FilePath] finds, and only writes to the log. *)
Lemma filePath_run (file : list string) (s : Sys) :
  fst (filePath W file s) = fst (FilePath W [nameOf (cfg s) file] s)
  /\ cfg (snd (filePath W file s)) = cfg s
  /\ watches (snd (filePath W file s)) = watches s
  /\ (fst (filePath W file s) <> EmptyString -> snd (filePath W file s) = s).
Proof.
  rewrite FilePath_resolve. unfold filePath, bind, getCfg.
  rewrite FilePath_resolve. cbn [fst snd nameOf].
  destruct (isEmpty (resolve W _ _)) eqn:He.
  - apply isEmpty_true in He.
    unfold when, glog_Error, writeLog, ret. rewrite He.
    destruct (errorPrint W); cbn; done.
  - unfold ret. cbn. done.
Qed.

End Resolution.

(** ** The document cache *)

Section Cache.

Context (W : World).

(** Parsing and registering the watch never touch the [Config]. *)
Lemma loadAndWatch_cfg (name : string) (b : bool) (path content : string) (s : Sys) :
  cfg (snd (loadAndWatch W name b path content s)) = cfg s.
Proof.
  unfold loadAndWatch, bind, getCfg.
  destruct (loadContent W name b content) as [j|err].
  - destruct (nonEmpty path && negb (gres_Contains W path)); [|done].
    destruct (gfsnotify_Add W path); [|done].
    by destruct (errorPrint W).
  - destruct (errorPrint W); [|done]. by destruct (nonEmpty path).
Qed.

(** The compute step works on the log and on the watches only. *)
Lemma compute_cfg (name : string) (s : Sys) :
  cfg (snd (compute W name s)) = cfg s.
Proof.
  unfold compute. destruct (isEmpty (GetContent W name)).
  - rewrite bind_run.
    destruct (filePath_run W [name] s) as (_ & Hc & _).
    destruct (isEmpty (fst (filePath W [name] s))); [done|].
    by rewrite loadAndWatch_cfg.
  - apply loadAndWatch_cfg.
Qed.

(** A cached name is answered from the cache, nothing else happens. *)
Lemma getJson_hit (file : list string) (s : Sys) (j : Json) :
  jsonMap (cfg s) !! nameOfNonEmpty (cfg s) file = Some j ->
  getJson W file s = (Some j, s).
Proof.
  intros Hhit. unfold getJson, GetOrSetFuncLock, bind, getCfg. by rewrite Hhit.
Qed.

(** A name that is not cached is computed, and stored when the compute step
    gives a document. *)
Lemma getJson_miss (file : list string) (s : Sys) :
  let name := nameOfNonEmpty (cfg s) file in
  let r := compute W name s in
  jsonMap (cfg s) !! name = None ->
  fst (getJson W file s) = fst r
  /\ cfg (snd (getJson W file s)) =
       match fst r with
       | Some j => set_jsonMap (<[name := j]> (jsonMap (cfg s))) (cfg s)
       | None => cfg s
       end
  /\ logs (snd (getJson W file s)) = logs (snd r)
  /\ watches (snd (getJson W file s)) = watches (snd r).
Proof.
  intros name r Hmiss. subst r.
  pose proof (compute_cfg name s) as Hc.
  unfold getJson, GetOrSetFuncLock, bind, getCfg. fold name. rewrite Hmiss.
  destruct (compute W name s) as [[j|] s1]; cbn in *; by rewrite ?Hc.
Qed.

End Cache.

(** * The search path set *)

(** C9: from a search path set with no empty and no duplicate entry (the
    empty set of a new [Config] is one), every sequence of [AddPath] and
    [SetPath] calls yields such a set again, [New] itself yields one, and an
    [AddPath] whose argument resolves to the directory a successful
    [AddPath] has just resolved is a successful no-op: the set, and so its
    length, stays as it is. *)
Theorem searchPaths_never_empty_or_duplicate
    (W : World) (ops : list (PathOp * string)) (s : Sys) :
  wellFormed (searchPaths (cfg s)) ->
  let s' := runOps W ops s in
  wellFormed (searchPaths (cfg s'))
  /\ (forall file s0, wellFormed (searchPaths (fst (New W file s0))))
  /\ (forall p1 p2 : string,
        fst (AddPath W p1 s') = None ->
        let s1 := snd (AddPath W p1 s') in
        resolveDir W p2 (searchPaths (cfg s1)) =
          (fst (resolveDir W p1 (searchPaths (cfg s'))), true) ->
        AddPath W p2 s1 = (None, s1)
        /\ length (searchPaths (cfg (snd (AddPath W p2 s1)))) =
             length (searchPaths (cfg s1))).
Proof.
  intros Hwf s'. split; [by apply runOps_wellFormed|].
  split; [intros file s0; apply New_wellFormed|].
  intros p1 p2 Hok s1 Hres.
  assert (Hin : fst (resolveDir W p1 (searchPaths (cfg s'))) ∈ searchPaths (cfg s1)
                /\ fst (resolveDir W p1 (searchPaths (cfg s'))) <> EmptyString).
  { subst s1.
    destruct (AddPath_cases W p1 s') as [(Herr&_)|[(E&?&_&?)|(_&?&_&_&E&_)]].
    - by destruct Herr.
    - rewrite E. auto.
    - rewrite E. split; [|done]. cbn.
      rewrite elem_of_app, list_elem_of_singleton. by right. }
  destruct Hin as [Hin Hne].
  assert (E : AddPath W p2 s1 = (None, s1)).
  { destruct (AddPath_cases W p2 s1) as [(_&_&_&Hbad)|[(E&_)|(_&_&_&Hni&_)]].
    - rewrite Hres in Hbad. cbn in Hbad. by destruct Hbad.
    - exact E.
    - rewrite Hres in Hni. cbn in Hni. by destruct Hni. }
  by rewrite E.
Qed.

(** A new set stays well formed under a mixed sequence of calls, and
    adding ["/b"] a second time changes nothing. *)
Lemma searchPaths_never_empty_or_duplicate_witness :
  wellFormed (searchPaths (cfg (runOps Toy.plain Toy.mixedOps (Toy.fresh []))))
  /\ searchPaths (cfg (runOps Toy.plain Toy.mixedOps (Toy.fresh []))) = ["/pwd"]
  /\ AddPath Toy.plain "/b"
       (snd (AddPath Toy.plain "/b" (runOps Toy.plain Toy.mixedOps (Toy.fresh []))))
     = (None, snd (AddPath Toy.plain "/b"
                     (runOps Toy.plain Toy.mixedOps (Toy.fresh [])))).
Proof.
  destruct (searchPaths_never_empty_or_duplicate Toy.plain Toy.mixedOps
              (Toy.fresh []) wellFormed_nil) as (Hwf & _ & Hidem).
  split; [exact Hwf|]. split; [vm_compute; reflexivity|].
  apply (Hidem "/b" "/b"); vm_compute; reflexivity.
Defined.

(** * Switching the configuration root *)

(** [SetPath] with a directory that is already in the set succeeds and
    changes nothing: both directories stay, the cached document stays, and
    the next fetch returns the document read under [/b], not the one of the
    new root [/a]. *)
Lemma SetPath_known_directory_keeps_all :
  fst (SetPath Toy.plain "/a" fetchedUnderB) = None
  /\ fst (resolveDir Toy.plain "/a" (searchPaths (cfg fetchedUnderB))) = "/a"
  /\ searchPaths (cfg (snd (SetPath Toy.plain "/a" fetchedUnderB))) = ["/b"; "/a"]
  /\ jsonMap (cfg (snd (SetPath Toy.plain "/a" fetchedUnderB))) !! "app.json"
       = Some (Toy.doc "json" "2")
  /\ fst (getJson Toy.plain ["app.json"] (snd (SetPath Toy.plain "/a" fetchedUnderB)))
       = Some (Toy.doc "json" "2")
  /\ fst (getJson Toy.plain ["app.json"] (Toy.fresh ["/a"]))
       = Some (Toy.doc "json" "1").
Proof. vm_compute. repeat split; reflexivity. Qed.

(** C1, amended: when [SetPath] succeeds and the resolved directory is not
    yet in the search path set, the document cache is emptied and the set
    becomes that single directory, so that every later fetch runs the
    compute step again; when the resolved directory is already in the set,
    [SetPath] succeeds and leaves the set and the cache as they are. *)
Theorem SetPath_success_replaces_unless_known (W : World) (path : string) (s : Sys) :
  fst (SetPath W path s) = None ->
  let realPath := fst (resolveDir W path (searchPaths (cfg s))) in
  let s' := snd (SetPath W path s) in
  (realPath ∈ searchPaths (cfg s) -> s' = s)
  /\ (realPath ∉ searchPaths (cfg s) ->
      jsonMap (cfg s') = ∅
      /\ searchPaths (cfg s') = [realPath]
      /\ forall (W' : World) (file : list string),
           fst (getJson W' file s') =
             fst (compute W' (nameOfNonEmpty (cfg s') file) s')).
Proof.
  intros Hok realPath s'. subst realPath s'.
  destruct (SetPath_cases W path s) as [(Herr&_)|[(E&_&_&Hin)|(_&_&_&Hni&E&_)]].
  - by destruct Herr.
  - split; [by rewrite E|]. intros Hni. by destruct Hni.
  - split; [intros Hin; by destruct Hni|]. intros _.
    split; [by rewrite E|]. split; [by rewrite E|].
    intros W' file. apply getJson_miss. rewrite E. apply lookup_empty.
Qed.

(** Switching from the set [/b; /a] with a cached document to the new root
    [/pwd] empties the cache and leaves [/pwd] alone in the set. *)
Lemma SetPath_success_replaces_unless_known_witness :
  jsonMap (cfg (snd (SetPath Toy.plain "/pwd" fetchedUnderB))) = ∅
  /\ searchPaths (cfg (snd (SetPath Toy.plain "/pwd" fetchedUnderB))) = ["/pwd"].
Proof.
  assert (Hok : fst (SetPath Toy.plain "/pwd" fetchedUnderB) = None)
    by (vm_compute; reflexivity).
  destruct (SetPath_success_replaces_unless_known Toy.plain "/pwd" fetchedUnderB Hok)
    as [_ Hnew].
  destruct Hnew as (Hcache & Hset & _).
  - vm_compute. intros Hin. inversion Hin as [|? ? ? Hin']; subst.
    inversion Hin' as [|? ? ? Hin'']; subst. inversion Hin''.
  - split; [exact Hcache|exact Hset].
Defined.

(** * Precedence among the search directories *)

(** With the set [/a; /b], the file in both directories and in the main
    package directory [/main], [FilePath] answers the path under [/main]:
    [getSearchPaths] puts the main package directory in front of the set. *)
Lemma FilePath_main_package_before_first :
  searchPaths (cfg (Toy.fresh ["/a"; "/b"])) = ["/a"; "/b"]
  /\ gspath_Search Toy.withMain "/a" "app.json" = "/a/app.json"
  /\ gspath_Search Toy.withMain "/b" "app.json" = "/b/app.json"
  /\ fst (FilePath Toy.withMain ["app.json"] (Toy.fresh ["/a"; "/b"]))
       = "/main/app.json"
  /\ fst (FilePath Toy.withMain ["app.json"] (Toy.fresh ["/a"; "/b"]))
       <> "/a/app.json".
Proof. vm_compute. repeat split; try reflexivity. discriminate. Qed.

Lemma getSearchPaths_plain (W : World) (c : Config) :
  gfile_MainPkgPath W = EmptyString \/ gfile_MainPkgPath W ∈ searchPaths c ->
  getSearchPaths W c = searchPaths c.
Proof.
  unfold getSearchPaths. intros [Hmain|Hmain].
  - apply nonEmpty_false in Hmain. by rewrite Hmain.
  - apply gstr_InArray_spec in Hmain. rewrite Hmain.
    by destruct (nonEmpty (gfile_MainPkgPath W)).
Qed.

(** C2, amended: for a search path set that starts with [A], a file name
    that [gspath.Search] finds under [A] (trailing separators trimmed) is
    resolved to that path under [A], whatever the later directories hold,
    provided that the resource overlay is empty or has none of the probed
    keys, and that the main package directory is unset or is itself in the
    set. *)
Theorem FilePath_first_directory_wins
    (W : World) (s : Sys) (name A : string) (rest : list string) :
  searchPaths (cfg s) = A :: rest ->
  (gfile_MainPkgPath W = EmptyString \/ gfile_MainPkgPath W ∈ A :: rest) ->
  (gres_IsEmpty W = true \/
   forall key, key ∈ overlayProbes (A :: rest) name -> gres_Get W key = None) ->
  gspath_Search W (gstr_TrimRight W A "\/") name <> EmptyString ->
  fst (FilePath W [name] s) = gspath_Search W (gstr_TrimRight W A "\/") name.
Proof.
  intros Hset Hmain Hoverlay Hfound.
  rewrite FilePath_resolve. cbn [fst nameOf].
  rewrite getSearchPaths_plain by (by rewrite Hset). rewrite Hset.
  unfold resolve.
  assert (Hmiss : (if gres_IsEmpty W then None
                   else firstHit (overlayHit W) (overlayProbes (A :: rest) name)) = None).
  { destruct Hoverlay as [->|Hnone]; [done|].
    destruct (gres_IsEmpty W); [done|].
    apply firstHit_None. intros key Hkey. unfold overlayHit.
    by rewrite (Hnone key Hkey). }
  rewrite Hmiss. cbn [fileSystemProbes flat_map app firstHit].
  unfold fileSystemHit at 1.
  apply nonEmpty_true in Hfound. by rewrite Hfound.
Qed.

(** Without a main package directory, the set [/a; /b] resolves the file
    both hold to the one under [/a]. *)
Lemma FilePath_first_directory_wins_witness :
  fst (FilePath Toy.plain ["app.json"] (Toy.fresh ["/a"; "/b"])) = "/a/app.json".
Proof.
  apply (FilePath_first_directory_wins Toy.plain (Toy.fresh ["/a"; "/b"])
           "app.json" "/a" ["/b"]).
  - reflexivity.
  - left. reflexivity.
  - left. reflexivity.
  - vm_compute. discriminate.
Defined.

(** * The order of resolution *)

(** The file [only.json] is in no search directory of the set [/a; /b],
    in neither of their config subdirectories, and the overlay is empty:
    the resolution over the set misses everywhere.  Still [FilePath] finds
    it, in the main package directory [/main], which is not in the set. *)
Lemma FilePath_probes_outside_the_set :
  searchPaths (cfg (Toy.fresh ["/a"; "/b"])) = ["/a"; "/b"]
  /\ gres_IsEmpty mainOnly = true
  /\ fileSystemProbes mainOnly ["/a"; "/b"] = ["/a"; "/a/config"; "/b"; "/b/config"]
  /\ gspath_Search mainOnly "/a" "only.json" = EmptyString
  /\ gspath_Search mainOnly "/a/config" "only.json" = EmptyString
  /\ gspath_Search mainOnly "/b" "only.json" = EmptyString
  /\ gspath_Search mainOnly "/b/config" "only.json" = EmptyString
  /\ resolve mainOnly ["/a"; "/b"] "only.json" = EmptyString
  /\ fst (FilePath mainOnly ["only.json"] (Toy.fresh ["/a"; "/b"])) = "/main/only.json".
Proof. vm_compute. repeat split; reflexivity. Qed.

(** C5, amended: [FilePath] resolves a name in the order of [resolve] over
    the directories [dirs]: the search path set, with the main package
    directory put in front of it when that directory is set and not in the
    set.  When the overlay is not empty, the name under the prefixes "",
    "/", "config/", "config", "/config", "/config/", then the same with
    each directory of [dirs] in front, the first hit winning; without a hit
    in the overlay, the file system, for each directory of [dirs] with its
    trailing separators trimmed, first in the directory and then in its
    "config" subdirectory.  The state is returned as it was, and a miss
    everywhere gives the empty string. *)
Theorem FilePath_resolution_order_with_main_package
    (W : World) (file : list string) (s : Sys) :
  let name := nameOf (cfg s) file in
  let main := gfile_MainPkgPath W in
  let dirs :=
    if decide (main = EmptyString \/ main ∈ searchPaths (cfg s))
    then searchPaths (cfg s)
    else main :: searchPaths (cfg s) in
  FilePath W file s = (resolve W dirs name, s)
  /\ ((gres_IsEmpty W = true \/
       forall key, key ∈ overlayProbes dirs name -> gres_Get W key = None) ->
      (forall root, root ∈ fileSystemProbes W dirs ->
         gspath_Search W root name = EmptyString) ->
      FilePath W file s = (EmptyString, s)).
Proof.
  intros name main dirs.
  assert (Hdirs : getSearchPaths W (cfg s) = dirs).
  { subst dirs. destruct (decide _) as [Hplain|Hfront].
    - by apply getSearchPaths_plain.
    - unfold getSearchPaths. fold main.
      destruct (nonEmpty main) eqn:Hne.
      + destruct (gstr_InArray (searchPaths (cfg s)) main) eqn:Hin; [|done].
        apply gstr_InArray_spec in Hin. destruct Hfront. by right.
      + apply nonEmpty_false in Hne. destruct Hfront. by left. }
  rewrite FilePath_resolve, Hdirs. fold name. split; [done|].
  intros Hoverlay Hfs. f_equal. unfold resolve.
  assert (Hmiss : (if gres_IsEmpty W then None
                   else firstHit (overlayHit W) (overlayProbes dirs name)) = None).
  { destruct Hoverlay as [->|Hnone]; [done|].
    destruct (gres_IsEmpty W); [done|].
    apply firstHit_None. intros key Hkey. unfold overlayHit.
    by rewrite (Hnone key Hkey). }
  rewrite Hmiss.
  assert (Hnone : firstHit (fileSystemHit W name) (fileSystemProbes W dirs) = None).
  { apply firstHit_None. intros root Hroot. unfold fileSystemHit.
    rewrite (Hfs root Hroot). reflexivity. }
  by rewrite Hnone.
Qed.

(** With the main package directory [/main] and the set [/a; /b], a name
    that is in none of the three directories resolves to the empty string,
    the state untouched. *)
Lemma FilePath_resolution_order_with_main_package_witness :
  FilePath mainOnly ["absent.toml"] (Toy.fresh ["/a"; "/b"])
    = (EmptyString, Toy.fresh ["/a"; "/b"]).
Proof.
  apply (FilePath_resolution_order_with_main_package mainOnly ["absent.toml"]
           (Toy.fresh ["/a"; "/b"])).
  - left. reflexivity.
  - intros root Hroot. vm_compute in Hroot.
    repeat (apply elem_of_cons in Hroot as [->|Hroot]; [vm_compute; reflexivity|]).
    by apply elem_of_nil in Hroot.
Defined.

Example FilePath_overlay_first :
  fst (FilePath bundled ["app.json"] (Toy.fresh ["/a"])) = "config/app.json".
Proof. vm_compute. reflexivity. Qed.

(** * Failed fetches *)

(** The two ways of failing: the name resolves to nothing, or the parser
    rejects the content. *)
Lemma compute_unresolvable (W : World) (name : string) (s : Sys) :
  GetContent W name = EmptyString ->
  fst (FilePath W [name] s) = EmptyString ->
  fst (compute W name s) = None.
Proof.
  intros Hinline Hmiss. unfold compute. rewrite Hinline. cbn [isEmpty String.eqb].
  rewrite bind_run.
  destruct (filePath_run W [name] s) as (Hfst & _). cbn [nameOf] in Hfst.
  rewrite Hfst, Hmiss. reflexivity.
Qed.

Lemma loadAndWatch_rejected (W : World) (name : string) (b : bool)
    (path content err : string) (s : Sys) :
  loadContent W name b content = inr err ->
  fst (loadAndWatch W name b path content s) = None.
Proof.
  intros Hrej. unfold loadAndWatch, bind, getCfg. rewrite Hrej.
  destruct (errorPrint W); [|done]. by destruct (nonEmpty path).
Qed.

(** C4: when a fetch fails, the document cache is as it was, with nothing
    under the name; the next fetch runs the compute step again, and when
    that step now gives a document, the fetch returns it and caches it. *)
Theorem failed_fetch_is_not_cached (W : World) (file : list string) (s : Sys) :
  fst (getJson W file s) = None ->
  let name := nameOfNonEmpty (cfg s) file in
  let s' := snd (getJson W file s) in
  cfg s' = cfg s
  /\ jsonMap (cfg s') !! name = None
  /\ forall W' : World,
       fst (getJson W' file s') = fst (compute W' name s')
       /\ forall j, fst (compute W' name s') = Some j ->
            fst (getJson W' file s') = Some j
            /\ jsonMap (cfg (snd (getJson W' file s'))) !! name = Some j.
Proof.
  intros Hfail name s'. subst s'.
  destruct (jsonMap (cfg s) !! name) as [j|] eqn:Hlook.
  { rewrite (getJson_hit W file s j Hlook) in Hfail. discriminate. }
  destruct (getJson_miss W file s Hlook) as (Hfst & Hcfg & _). fold name in Hfst, Hcfg.
  rewrite Hfail in Hfst. rewrite <- Hfst in Hcfg.
  split; [exact Hcfg|]. split; [by rewrite Hcfg|].
  intros W'.
  assert (Hlook' : jsonMap (cfg (snd (getJson W file s)))
                     !! nameOfNonEmpty (cfg (snd (getJson W file s))) file = None).
  { by rewrite Hcfg. }
  destruct (getJson_miss W' file _ Hlook') as (Hfst' & Hcfg' & _).
  rewrite Hcfg in Hfst', Hcfg'. fold name in Hfst', Hcfg'.
  split; [done|].
  intros j Hj. split; [by rewrite Hfst'|].
  rewrite Hcfg', Hj. cbn. apply lookup_insert_eq.
Qed.

(** The fetch of the malformed file fails; once the file holds ["1"], the
    fetch from the state the failure left gives its document. *)
Lemma failed_fetch_is_not_cached_witness :
  fst (getJson malformed ["app.json"] (Toy.fresh ["/a"])) = None
  /\ fst (getJson Toy.plain ["app.json"]
            (snd (getJson malformed ["app.json"] (Toy.fresh ["/a"]))))
     = Some (Toy.doc "json" "1").
Proof.
  assert (Hfail : fst (getJson malformed ["app.json"] (Toy.fresh ["/a"])) = None)
    by (vm_compute; reflexivity).
  split; [exact Hfail|].
  destruct (failed_fetch_is_not_cached malformed ["app.json"] (Toy.fresh ["/a"]) Hfail)
    as (_ & _ & Hnext).
  destruct (Hnext Toy.plain) as [_ Hfixed].
  apply Hfixed. vm_compute. reflexivity.
Defined.

(** * Watching the resolved file *)

(** With error printing off, a failed watch registration leaves no trace in
    the log; the document is returned and cached all the same. *)
Lemma failed_watch_not_logged_when_quiet :
  gfsnotify_Add unwatchedQuiet "/a/app.json" = Some "too many open files"
  /\ fst (getJson unwatchedQuiet ["app.json"] (Toy.fresh ["/a"]))
       = Some (Toy.doc "json" "1")
  /\ jsonMap (cfg (snd (getJson unwatchedQuiet ["app.json"] (Toy.fresh ["/a"]))))
       !! "app.json" = Some (Toy.doc "json" "1")
  /\ logs (snd (getJson unwatchedQuiet ["app.json"] (Toy.fresh ["/a"]))) = [].
Proof. vm_compute. repeat split; reflexivity. Qed.

(** The callback removes the entry of its name and no other. *)
Lemma evict_exactly (name : string) (c : Config) :
  jsonMap (evict name c) !! name = None
  /\ forall other, other <> name ->
       jsonMap (evict name c) !! other = jsonMap c !! other.
Proof.
  unfold evict. cbn. split; [apply lookup_delete_eq|].
  intros other Hne. by apply lookup_delete_ne.
Qed.

(** C7, amended: when a name that is not cached and has no inline content
    resolves to a path outside the resource overlay and its content parses,
    the document is returned and cached; if gfsnotify accepts the watch, a
    watch on the resolved path is registered whose callback removes exactly
    that name from the cache; if gfsnotify refuses it, no watch is
    registered, and the error is written to the log when error printing is
    on (and nowhere when it is off). *)
Theorem fetched_file_is_watched
    (W : World) (file : list string) (s : Sys) (path : string) (j : Json) :
  let name := nameOfNonEmpty (cfg s) file in
  jsonMap (cfg s) !! name = None ->
  GetContent W name = EmptyString ->
  fst (FilePath W [name] s) = path ->
  path <> EmptyString ->
  gres_Get W path = None ->
  loadContent W name false (gfile_GetContents W path) = inl j ->
  let j' := Json_SetViolenceCheck (violenceCheck (cfg s)) j in
  let s' := snd (getJson W file s) in
  fst (getJson W file s) = Some j'
  /\ jsonMap (cfg s') !! name = Some j'
  /\ match gfsnotify_Add W path with
     | None =>
         watches s' = (watches s ++ [mkWatch path (evict name)])%list
         /\ logs s' = logs s
     | Some err =>
         watches s' = watches s
         /\ logs s' = (logs s ++ if errorPrint W then [mkLog LvError err] else [])%list
     end
  /\ forall c : Config,
       jsonMap (evict name c) !! name = None
       /\ forall other, other <> name ->
            jsonMap (evict name c) !! other = jsonMap c !! other.
Proof.
  intros name Hmiss Hinline Hpath Hne Hres Hload j' s'. subst s'.
  destruct (getJson_miss W file s Hmiss) as (Hfst & Hcfg & Hlogs & Hwatches).
  fold name in Hfst, Hcfg, Hlogs, Hwatches.
  assert (Hrun : compute W name s =
            loadAndWatch W name false path (gfile_GetContents W path) s).
  { unfold compute. rewrite Hinline. cbn [isEmpty String.eqb]. rewrite bind_run.
    destruct (filePath_run W [name] s) as (Hf & _ & _ & Hs). cbn [nameOf] in Hf.
    rewrite Hpath in Hf. rewrite Hf in Hs |- *. rewrite (Hs Hne).
    apply isEmpty_false in Hne. by rewrite Hne, Hres. }
  rewrite Hrun in Hfst, Hcfg, Hlogs, Hwatches. clear Hrun.
  assert (Hlw : loadAndWatch W name false path (gfile_GetContents W path) s =
            (Some j',
             match gfsnotify_Add W path with
             | None => snd (addWatch (mkWatch path (evict name)) s)
             | Some err => snd (when (errorPrint W) (glog_Error err) s)
             end)).
  { unfold loadAndWatch, bind, getCfg. rewrite Hload.
    unfold gres_Contains. rewrite Hres.
    apply nonEmpty_true in Hne. rewrite Hne.
    rewrite bool_decide_eq_false_2 by (intros [? ?]; discriminate).
    cbn [andb negb].
    destruct (gfsnotify_Add W path); [|done].
    by destruct (errorPrint W). }
  rewrite Hlw in Hfst, Hcfg, Hlogs, Hwatches. cbn [fst snd] in *.
  split; [exact Hfst|]. split; [rewrite Hcfg; cbn; apply lookup_insert_eq|].
  split; [|intros c; apply evict_exactly].
  rewrite Hlogs, Hwatches.
  destruct (gfsnotify_Add W path) as [err|]; cbn.
  - destruct (errorPrint W); cbn; [done|]. by rewrite app_nil_r.
  - done.
Qed.

(** The fetch of [/a/app.json] registers the watch that evicts
    [app.json]. *)
Lemma fetched_file_is_watched_witness :
  fst (getJson Toy.plain ["app.json"] (Toy.fresh ["/a"])) = Some (Toy.doc "json" "1")
  /\ watches (snd (getJson Toy.plain ["app.json"] (Toy.fresh ["/a"])))
       = [mkWatch "/a/app.json" (evict "app.json")].
Proof.
  destruct (fetched_file_is_watched Toy.plain ["app.json"] (Toy.fresh ["/a"])
              "/a/app.json" (Toy.doc "json" "1"))
    as (Hdoc & _ & Hwatch & _).
  - reflexivity.
  - reflexivity.
  - vm_compute. reflexivity.
  - discriminate.
  - reflexivity.
  - vm_compute. reflexivity.
  - split; [exact Hdoc|]. exact (proj1 Hwatch).
Defined.

(** * The choice of the parser *)

Lemma loadAndWatch_fst (W : World) (name : string) (b : bool)
    (path content : string) (s : Sys) :
  fst (loadAndWatch W name b path content s)
    = parsed (cfg s) (loadContent W name b content).
Proof.
  unfold loadAndWatch, bind, getCfg.
  destruct (loadContent W name b content) as [j|err]; cbn [parsed].
  - destruct (nonEmpty path && negb (gres_Contains W path)); [|done].
    destruct (gfsnotify_Add W path); [|done].
    by destruct (errorPrint W).
  - destruct (errorPrint W); [|done]. by destruct (nonEmpty path).
Qed.

(** What the compute step parses, and with which flag. *)
Lemma compute_fst (W : World) (name : string) (s : Sys) :
  fst (compute W name s) =
    if isEmpty (GetContent W name) then
      if isEmpty (fst (filePath W [name] s)) then None
      else parsed (cfg s)
             (loadContent W name false (contentOf W (fst (filePath W [name] s))))
    else parsed (cfg s) (loadContent W name true (GetContent W name)).
Proof.
  unfold compute. destruct (isEmpty (GetContent W name)).
  - rewrite bind_run.
    destruct (filePath_run W [name] s) as (_ & Hc & _).
    destruct (isEmpty (fst (filePath W [name] s))); [done|].
    rewrite loadAndWatch_fst, Hc. reflexivity.
  - apply loadAndWatch_fst.
Qed.

(** C8: provided that [gjson.IsValidDataType] accepts the supported types
    toml, yaml, json, ini and xml, the content of a resolved file whose
    name has one of these extensions is parsed by [LoadContentType] for that
    extension; the content of a file whose extension [IsValidDataType] does
    not recognise, and the content configured inline whatever the name, are
    parsed by the generic [LoadContent]. *)
Theorem parser_follows_extension (W : World) (name : string) (s : Sys) :
  (forall t, t ∈ supportedFileTypes -> gjson_IsValidDataType W t = true) ->
  let ext := gfile_ExtName W name in
  let path := fst (filePath W [name] s) in
  (GetContent W name = EmptyString -> path <> EmptyString ->
     ext ∈ supportedFileTypes ->
     fst (compute W name s)
       = parsed (cfg s) (gjson_LoadContentType W ext (contentOf W path)))
  /\ (GetContent W name = EmptyString -> path <> EmptyString ->
        gjson_IsValidDataType W ext = false ->
        fst (compute W name s)
          = parsed (cfg s) (gjson_LoadContent W (contentOf W path)))
  /\ (GetContent W name <> EmptyString ->
        fst (compute W name s)
          = parsed (cfg s) (gjson_LoadContent W (GetContent W name))).
Proof.
  intros Hvalid ext path. rewrite compute_fst. fold path.
  split; [|split].
  - intros Hinline Hpath Hext.
    apply isEmpty_true in Hinline. apply isEmpty_false in Hpath.
    rewrite Hinline, Hpath. unfold loadContent. fold ext.
    by rewrite (Hvalid ext Hext).
  - intros Hinline Hpath Hext.
    apply isEmpty_true in Hinline. apply isEmpty_false in Hpath.
    rewrite Hinline, Hpath. unfold loadContent. fold ext.
    by rewrite Hext.
  - intros Hinline. apply isEmpty_false in Hinline. rewrite Hinline.
    unfold loadContent. by rewrite andb_false_r.
Qed.

(** [app.json] goes to the json parser, [app.conf] and the inline
    [inline.json] to the generic one. *)
Lemma parser_follows_extension_witness :
  fst (compute mixedSources "app.json" (Toy.fresh ["/a"])) = Some (Toy.doc "json" "1")
  /\ fst (compute mixedSources "app.conf" (Toy.fresh ["/a"])) = Some (Toy.doc "auto" "2")
  /\ fst (compute mixedSources "inline.json" (Toy.fresh ["/a"]))
       = Some (Toy.doc "auto" "3").
Proof.
  assert (Hvalid : forall t, t ∈ supportedFileTypes ->
            gjson_IsValidDataType mixedSources t = true).
  { intros t Ht. unfold supportedFileTypes in Ht.
    repeat (apply elem_of_cons in Ht as [->|Ht]; [reflexivity|]).
    by apply elem_of_nil in Ht. }
  split; [|split].
  - apply (parser_follows_extension mixedSources "app.json" (Toy.fresh ["/a"]) Hvalid).
    + reflexivity.
    + vm_compute. discriminate.
    + vm_compute. apply list_elem_of_In. vm_compute. tauto.
  - apply (parser_follows_extension mixedSources "app.conf" (Toy.fresh ["/a"]) Hvalid).
    + reflexivity.
    + vm_compute. discriminate.
    + reflexivity.
  - apply (parser_follows_extension mixedSources "inline.json" (Toy.fresh ["/a"]) Hvalid).
    vm_compute. discriminate.
Defined.

(** * The custom path of [New] *)






(** * Further properties of the path operations *)

Lemma searchRelative_app (W : World) (array more : list string) (path : string) :
  searchRelative W array path <> EmptyString ->
  searchRelative W (array ++ more) path = searchRelative W array path.
Proof.
  induction array as [|v rest IH]; cbn [searchRelative app]; [done|].
  destruct (nonEmpty (gspath_Search W v path)); [done|]. exact IH.
Qed.

(** A path that resolves keeps its resolution when the array grows at its
    end. *)
Lemma resolveDir_app (W : World) (path : string) (array more : list string) :
  fst (resolveDir W path array) <> EmptyString ->
  resolveDir W path (array ++ more) = resolveDir W path array.
Proof.
  unfold resolveDir. destruct (gres_Get W path); [done|]. cbn [fst].
  destruct (isEmpty (gfile_RealPath W path)); [|done].
  intros Hne. by rewrite searchRelative_app.
Qed.

(** X1: [AddPath] is idempotent: after a successful [AddPath], the same
    call again succeeds and changes nothing, neither the [Config] nor the
    log. *)
Theorem AddPath_twice (W : World) (path : string) (s : Sys) :
  fst (AddPath W path s) = None ->
  AddPath W path (snd (AddPath W path s)) = (None, snd (AddPath W path s)).
Proof.
  intros Hok.
  destruct (AddPath_cases W path s) as [(Herr&_)|[(E&_)|(_&Hne&Hdir&Hni&E&_)]].
  - by destruct Herr.
  - rewrite E. cbn [snd]. exact E.
  - set (s1 := snd (AddPath W path s)) in *.
    assert (Hres : resolveDir W path (searchPaths (cfg s1))
                   = resolveDir W path (searchPaths (cfg s))).
    { rewrite E. cbn [searchPaths set_searchPaths]. by apply resolveDir_app. }
    destruct (AddPath_cases W path s1) as [(_&_&_&Hbad)|[(E1&_)|(_&_&_&Hni1&_)]].
    + rewrite Hres in Hbad. destruct Hbad as [Hbad|Hbad]; [done|].
      rewrite Hdir in Hbad. discriminate.
    + exact E1.
    + rewrite Hres, E in Hni1. cbn [searchPaths set_searchPaths] in Hni1.
      destruct Hni1. rewrite elem_of_app, list_elem_of_singleton. by right.
Qed.

(** The relative path [sub] is found under [/a]; adding it again is a
    no-op. *)
Lemma AddPath_twice_witness :
  searchPaths (cfg (snd (AddPath nested "sub" (Toy.fresh ["/a"])))) = ["/a"; "/a/sub"]
  /\ AddPath nested "sub" (snd (AddPath nested "sub" (Toy.fresh ["/a"])))
     = (None, snd (AddPath nested "sub" (Toy.fresh ["/a"]))).
Proof.
  split; [vm_compute; reflexivity|].
  apply (AddPath_twice nested "sub" (Toy.fresh ["/a"])). vm_compute. reflexivity.
Defined.

(** X2: [AddPath] only ever appends: whatever its outcome, the document
    cache, the default file name, the violence-check flag and the watches
    are those before the call, and the search path set is the old one or
    the old one followed by the resolved directory. *)
Theorem AddPath_only_appends (W : World) (path : string) (s : Sys) :
  let s' := snd (AddPath W path s) in
  jsonMap (cfg s') = jsonMap (cfg s)
  /\ defaultName (cfg s') = defaultName (cfg s)
  /\ violenceCheck (cfg s') = violenceCheck (cfg s)
  /\ watches s' = watches s
  /\ (searchPaths (cfg s') = searchPaths (cfg s)
      \/ searchPaths (cfg s') =
           (searchPaths (cfg s)
              ++ [fst (resolveDir W path (searchPaths (cfg s)))])%list).
Proof.
  cbv zeta.
  destruct (AddPath_cases W path s) as [(_&E&Hw&_)|[(E&_)|(_&_&_&_&E&Hw)]].
  - rewrite E, Hw. repeat split; auto.
  - rewrite E. cbn [snd]. repeat split; auto.
  - rewrite E, Hw. cbn. repeat split; auto.
Qed.

(** X3: an [AddPath] or [SetPath] that fails leaves the [Config] and the
    watches as they were, and writes the returned message to the log, at
    error level, exactly when error printing is on. *)
Theorem failed_path_op_logs_its_error
    (W : World) (op : PathOp) (path : string) (s : Sys) (msg : string) :
  fst (runOp W op path s) = Some msg ->
  let s' := snd (runOp W op path s) in
  cfg s' = cfg s
  /\ watches s' = watches s
  /\ logs s' = (logs s ++ if errorPrint W then [mkLog LvError msg] else [])%list.
Proof.
  destruct op; cbn [runOp]; unfold AddPath, SetPath; run;
    destruct (resolveDir W path (searchPaths (cfg s))) as [realPath isDir];
    (destruct (isEmpty realPath);
     [|destruct isDir; cbn [negb];
       [destruct (StrArray_Search (searchPaths (cfg s)) realPath =? -1)%Z|]]);
    cbn; try discriminate;
    try (destruct (intlog_isGFDebug W); cbn; discriminate).
  all: destruct (errorPrint W); cbn; intros [= <-]; rewrite ?app_nil_r; done.
Qed.

(** [SetPath] on a file fails; the message is in the log. *)
Lemma failed_path_op_logs_its_error_witness :
  logs (snd (runOp Toy.plain OpSetPath "/a/notes" (Toy.fresh ["/a"; "/b"])))
    = [mkLog LvError (notDirMessage "SetPath" "/a/notes")].
Proof.
  apply (failed_path_op_logs_its_error Toy.plain OpSetPath "/a/notes"
           (Toy.fresh ["/a"; "/b"]) (notDirMessage "SetPath" "/a/notes")).
  vm_compute. reflexivity.
Defined.

(** * Further properties of the resolution *)

(** X16: [getSearchPaths] gives the search path set itself, or the set
    with the main package directory in front: it holds exactly the entries
    of the set and the main package directory when there is one, keeps the
    set as its suffix, and has no duplicate when the set has none. *)
Theorem getSearchPaths_adds_main_package_once (W : World) (c : Config) :
  (forall dir, dir ∈ getSearchPaths W c <->
     dir ∈ searchPaths c \/
     (dir = gfile_MainPkgPath W /\ gfile_MainPkgPath W <> EmptyString))
  /\ searchPaths c `suffix_of` getSearchPaths W c
  /\ (NoDup (searchPaths c) -> NoDup (getSearchPaths W c)).
Proof.
  unfold getSearchPaths.
  destruct (nonEmpty (gfile_MainPkgPath W)) eqn:Hmain.
  - apply nonEmpty_true in Hmain.
    destruct (gstr_InArray (searchPaths c) (gfile_MainPkgPath W)) eqn:Hin; cbn [negb].
    + apply gstr_InArray_spec in Hin. split; [|split; [done|done]].
      intros dir. split; [by left|]. intros [H|[-> _]]; done.
    + assert (Hni : gfile_MainPkgPath W ∉ searchPaths c).
      { intros H. apply gstr_InArray_spec in H. congruence. }
      split; [|split].
      * intros dir. rewrite elem_of_cons. split.
        -- intros [->|H]; [by right|by left].
        -- intros [H|[-> _]]; [by right|by left].
      * by apply suffix_cons_r.
      * intros Hnd. by apply NoDup_cons.
  - apply nonEmpty_false in Hmain. split; [|split; [done|done]].
    intros dir. split; [by left|]. intros [H|[_ H]]; done.
Qed.

(** X4: [filePath] returns what [FilePath] returns and changes only the
    log: nothing is written when the file is found or error printing is
    off, and one entry at error level is written when the file is not
    found and error printing is on. *)
Theorem filePath_reports_a_miss (W : World) (file : list string) (s : Sys) :
  let s' := snd (filePath W file s) in
  fst (filePath W file s) = fst (FilePath W file s)
  /\ cfg s' = cfg s
  /\ watches s' = watches s
  /\ (if isEmpty (fst (FilePath W file s)) && errorPrint W
      then exists msg, logs s' = (logs s ++ [mkLog LvError msg])%list
      else logs s' = logs s).
Proof.
  cbv zeta. rewrite (FilePath_resolve W file s).
  unfold filePath, bind, getCfg. rewrite FilePath_resolve. cbn [fst snd nameOf].
  destruct (isEmpty (resolve W _ _)) eqn:He; cbn [andb].
  - apply isEmpty_true in He.
    unfold when, glog_Error, writeLog, ret.
    destruct (errorPrint W); cbn; repeat split; eauto.
  - unfold ret. cbn. done.
Qed.

Lemma Available_run (W : World) (file : list string) (s : Sys) :
  Available W file s =
    (nonEmpty (fst (FilePath W [nameOfNonEmpty (cfg s) file] s))
       || nonEmpty (GetContent W (nameOfNonEmpty (cfg s) file)), s).
Proof.
  unfold Available, bind, getCfg. rewrite !FilePath_resolve. cbn [fst snd].
  destruct (nonEmpty (resolve W _ _)); [done|]. cbn [orb].
  by destruct (nonEmpty (GetContent W _)).
Qed.

(** X5: [Available] changes nothing, and when it answers false for a name
    that is not cached, [getJson] for that name returns nil and caches
    nothing. *)
Theorem unavailable_file_gives_no_document (W : World) (file : list string) (s : Sys) :
  snd (Available W file s) = s
  /\ (fst (Available W file s) = false ->
      jsonMap (cfg s) !! nameOfNonEmpty (cfg s) file = None ->
      fst (getJson W file s) = None
      /\ cfg (snd (getJson W file s)) = cfg s).
Proof.
  rewrite Available_run. cbn [fst snd]. split; [done|].
  intros Hav Hmiss. apply orb_false_elim in Hav as [Hpath Hinline].
  apply nonEmpty_false in Hpath, Hinline.
  destruct (getJson_miss W file s Hmiss) as (Hfst & Hcfg & _).
  rewrite (compute_unresolvable W _ s Hinline Hpath) in Hfst, Hcfg. done.
Qed.

(** A name that is nowhere is not available, and fetching it gives nil. *)
Lemma unavailable_file_gives_no_document_witness :
  fst (Available Toy.plain ["absent.toml"] (Toy.fresh ["/a"])) = false
  /\ fst (getJson Toy.plain ["absent.toml"] (Toy.fresh ["/a"])) = None.
Proof.
  split; [vm_compute; reflexivity|].
  apply (unavailable_file_gives_no_document Toy.plain ["absent.toml"] (Toy.fresh ["/a"])).
  - vm_compute. reflexivity.
  - reflexivity.
Defined.

(** X6: [getJson] and [Available] look at the first file name only, and
    take an absent or empty first name for the default file name, also
    right after [SetFileName]. *)
Theorem empty_file_name_is_the_default (W : World) (s : Sys) :
  getJson W [EmptyString] s = getJson W [] s
  /\ getJson W [defaultName (cfg s)] s = getJson W [] s
  /\ Available W [EmptyString] s = Available W [] s
  /\ Available W [defaultName (cfg s)] s = Available W [] s
  /\ (forall f rest, getJson W (f :: rest) s = getJson W [f] s)
  /\ (forall f rest, Available W (f :: rest) s = Available W [f] s)
  /\ (forall name,
        getJson W [] (snd (SetFileName name s))
          = getJson W [name] (snd (SetFileName name s))
        /\ fst (GetFileName (snd (SetFileName name s))) = name).
Proof.
  assert (Hname : nameOfNonEmpty (cfg s) [defaultName (cfg s)] = defaultName (cfg s)).
  { cbn. by destruct (nonEmpty (defaultName (cfg s))). }
  repeat split.
  - unfold getJson, bind, getCfg. by rewrite Hname.
  - rewrite !Available_run. by rewrite Hname.
  - unfold getJson, bind, getCfg. cbn. by destruct (nonEmpty name).
Qed.

(** * Further properties of the document cache *)

(** X7: a document that a fetch has returned is served from the cache from
    then on: the same fetch again returns the same document and changes
    nothing, whatever the overlay and the file system have become in the
    meantime. *)
Theorem fetched_document_is_served_again
    (W W' : World) (file : list string) (s : Sys) (j : Json) :
  fst (getJson W file s) = Some j ->
  getJson W' file (snd (getJson W file s)) = (Some j, snd (getJson W file s)).
Proof.
  intros Hdoc. apply getJson_hit.
  destruct (jsonMap (cfg s) !! nameOfNonEmpty (cfg s) file) as [j0|] eqn:Hlook.
  - rewrite (getJson_hit W file s j0 Hlook) in Hdoc |- *. cbn in Hdoc |- *. congruence.
  - destruct (getJson_miss W file s Hlook) as (Hfst & Hcfg & _).
    rewrite Hdoc in Hfst. rewrite <- Hfst in Hcfg. rewrite Hcfg.
    cbn. apply lookup_insert_eq.
Qed.

(** After the fetch of [/a/app.json], the file becoming malformed does not
    show: the cached document is returned. *)
Lemma fetched_document_is_served_again_witness :
  fst (getJson malformed ["app.json"]
         (snd (getJson Toy.plain ["app.json"] (Toy.fresh ["/a"]))))
    = Some (Toy.doc "json" "1").
Proof.
  rewrite (fetched_document_is_served_again Toy.plain malformed ["app.json"]
             (Toy.fresh ["/a"]) (Toy.doc "json" "1")); [reflexivity|].
  vm_compute. reflexivity.
Defined.

(** The callbacks of a change event only remove entries of the cache. *)
Lemma fireEvent_run (path : string) (s : Sys) :
  evictingWatches s ->
  let s' := snd (fireEvent path s) in
  logs s' = logs s /\ watches s' = watches s
  /\ defaultName (cfg s') = defaultName (cfg s)
  /\ searchPaths (cfg s') = searchPaths (cfg s)
  /\ violenceCheck (cfg s') = violenceCheck (cfg s)
  /\ (forall name j, jsonMap (cfg s') !! name = Some j ->
        jsonMap (cfg s) !! name = Some j)
  /\ (forall name, mkWatch path (evict name) ∈ watches s ->
        jsonMap (cfg s') !! name = None).
Proof.
  unfold evictingWatches. intros Hev. cbv zeta. unfold fireEvent.
  cbn [snd cfg logs watches]. split; [done|]. split; [done|].
  revert Hev. generalize (cfg s) as c. generalize (watches s) as ws. clear s.
  induction ws as [|w ws IH]; intros c Hev; cbn [fold_left].
  { repeat split; auto. intros name H. by apply elem_of_nil in H. }
  destruct (Hev w) as [n Hn]; [left|].
  set (c1 := if String.eqb (wpath w) path then wcallback w c else c).
  assert (Hc1 : defaultName c1 = defaultName c /\ searchPaths c1 = searchPaths c
                 /\ violenceCheck c1 = violenceCheck c
                 /\ forall name j, jsonMap c1 !! name = Some j ->
                      jsonMap c !! name = Some j).
  { subst c1. destruct (String.eqb (wpath w) path); [|done]. rewrite Hn.
    repeat split. intros name j. cbn. rewrite lookup_delete_Some. tauto. }
  destruct Hc1 as (Hd & Hs & Hv & Hsub).
  destruct (IH c1) as (Hd' & Hs' & Hv' & Hsub' & Hgone).
  { intros w' Hw'. apply Hev. by right. }
  split; [congruence|]. split; [congruence|]. split; [congruence|].
  split; [intros name j H; apply Hsub, Hsub', H|].
  intros name Hin. apply elem_of_cons in Hin as [Heq|Hin]; [|by apply Hgone].
  destruct (jsonMap (fold_left _ ws c1) !! name) as [j|] eqn:Hlook; [|done].
  apply Hsub' in Hlook. subst c1 w. cbn in Hlook.
  rewrite String.eqb_refl in Hlook. cbn in Hlook.
  by rewrite lookup_delete_eq in Hlook.
Qed.

(** What the compute step does to the log and to the watches when the name
    resolves to a file outside the overlay and the content parses. *)
Lemma compute_file_run (W : World) (name path : string) (j : Json) (s : Sys) :
  GetContent W name = EmptyString ->
  fst (FilePath W [name] s) = path ->
  path <> EmptyString ->
  gres_Get W path = None ->
  loadContent W name false (gfile_GetContents W path) = inl j ->
  compute W name s =
    (Some (Json_SetViolenceCheck (violenceCheck (cfg s)) j),
     match gfsnotify_Add W path with
     | None => snd (addWatch (mkWatch path (evict name)) s)
     | Some err => snd (when (errorPrint W) (glog_Error err) s)
     end).
Proof.
  intros Hinline Hpath Hne Hres Hload.
  unfold compute. rewrite Hinline. cbn [isEmpty String.eqb]. rewrite bind_run.
  destruct (filePath_run W [name] s) as (Hf & _ & _ & Hs). cbn [nameOf] in Hf.
  rewrite Hpath in Hf. rewrite Hf in Hs |- *. rewrite (Hs Hne).
  apply isEmpty_false in Hne as He. rewrite He, Hres.
  unfold loadAndWatch, bind, getCfg. rewrite Hload.
  unfold gres_Contains. rewrite Hres.
  apply nonEmpty_true in Hne. rewrite Hne.
  rewrite bool_decide_eq_false_2 by (intros [? ?]; discriminate).
  cbn [andb negb].
  destruct (gfsnotify_Add W path); [|done].
  by destruct (errorPrint W).
Qed.

(** X8: once a file outside the overlay has been fetched and its watch
    accepted, a change event for the resolved path removes the name from
    the cache, touches neither the search path set nor the log, and makes
    the next fetch run the compute step again. *)
Theorem change_event_forces_reload
    (W : World) (file : list string) (s : Sys) (path : string) (j : Json) :
  let name := nameOfNonEmpty (cfg s) file in
  jsonMap (cfg s) !! name = None ->
  GetContent W name = EmptyString ->
  fst (FilePath W [name] s) = path ->
  path <> EmptyString ->
  gres_Get W path = None ->
  loadContent W name false (gfile_GetContents W path) = inl j ->
  gfsnotify_Add W path = None ->
  evictingWatches s ->
  let s1 := snd (getJson W file s) in
  let s2 := snd (fireEvent path s1) in
  jsonMap (cfg s1) !! name = Some (Json_SetViolenceCheck (violenceCheck (cfg s)) j)
  /\ jsonMap (cfg s2) !! name = None
  /\ searchPaths (cfg s2) = searchPaths (cfg s)
  /\ logs s2 = logs s
  /\ forall W' : World,
       fst (getJson W' file s2) = fst (compute W' name s2).
Proof.
  intros name Hmiss Hinline Hpath Hne Hres Hload Hadd Hev s1 s2.
  destruct (getJson_miss W file s Hmiss) as (_ & Hcfg & Hlogs & Hwatches).
  fold name in Hcfg, Hlogs, Hwatches.
  rewrite (compute_file_run W name path j s Hinline Hpath Hne Hres Hload) in *.
  rewrite Hadd in *. cbn [fst snd addWatch logs watches] in *. fold s1 in Hcfg, Hlogs, Hwatches.
  assert (Hev1 : evictingWatches s1).
  { intros w Hw. rewrite Hwatches in Hw. apply elem_of_app in Hw as [Hw|Hw].
    - by apply Hev.
    - apply list_elem_of_singleton in Hw. subst w. by exists name. }
  destruct (fireEvent_run path s1 Hev1) as (Hl & _ & Hd & Hs & _ & _ & Hgone).
  fold s2 in Hl, Hd, Hs, Hgone.
  assert (Hnone : jsonMap (cfg s2) !! name = None).
  { apply Hgone. rewrite Hwatches, elem_of_app, list_elem_of_singleton. by right. }
  split; [rewrite Hcfg; cbn; apply lookup_insert_eq|].
  split; [exact Hnone|].
  split; [rewrite Hs, Hcfg; reflexivity|].
  split; [congruence|].
  intros W'.
  assert (Hn : nameOfNonEmpty (cfg s2) file = name).
  { unfold name, nameOfNonEmpty. rewrite Hd, Hcfg. reflexivity. }
  destruct (getJson_miss W' file s2) as (Hfst & _).
  - by rewrite Hn.
  - by rewrite Hn in Hfst.
Qed.

(** The fetch of [/a/app.json], a change event for it, and the next fetch,
    which now reads the malformed file and fails. *)
Lemma change_event_forces_reload_witness :
  jsonMap (cfg (snd (fireEvent "/a/app.json"
                       (snd (getJson Toy.plain ["app.json"] (Toy.fresh ["/a"]))))))
    !! "app.json" = None
  /\ fst (getJson malformed ["app.json"]
            (snd (fireEvent "/a/app.json"
                    (snd (getJson Toy.plain ["app.json"] (Toy.fresh ["/a"]))))))
     = None.
Proof.
  destruct (change_event_forces_reload Toy.plain ["app.json"] (Toy.fresh ["/a"])
              "/a/app.json" (Toy.doc "json" "1"))
    as (_ & Hgone & _ & _ & Hnext).
  - reflexivity.
  - reflexivity.
  - vm_compute. reflexivity.
  - discriminate.
  - reflexivity.
  - vm_compute. reflexivity.
  - reflexivity.
  - intros w Hw. by apply elem_of_nil in Hw.
  - split; [exact Hgone|]. rewrite (Hnext malformed). vm_compute. reflexivity.
Defined.

Lemma loadAndWatch_unwatched (W : World) (name : string) (b : bool)
    (path content : string) (s : Sys) :
  nonEmpty path && negb (gres_Contains W path) = false ->
  watches (snd (loadAndWatch W name b path content s)) = watches s.
Proof.
  intros Hno. unfold loadAndWatch, bind, getCfg. rewrite Hno.
  destruct (loadContent W name b content) as [j|err]; [done|].
  destruct (errorPrint W); [|done]. by destruct (nonEmpty path).
Qed.

(** X9: no watch is registered for a document that comes from the inline
    content or from the resource overlay: the watches after the fetch are
    those before it. *)
Theorem inline_and_overlay_are_not_watched (W : World) (file : list string) (s : Sys) :
  let name := nameOfNonEmpty (cfg s) file in
  GetContent W name <> EmptyString
    \/ is_Some (gres_Get W (fst (FilePath W [name] s))) ->
  watches (snd (getJson W file s)) = watches s.
Proof.
  intros name Hsrc.
  destruct (jsonMap (cfg s) !! name) as [j0|] eqn:Hlook.
  { by rewrite (getJson_hit W file s j0 Hlook). }
  destruct (getJson_miss W file s Hlook) as (_ & _ & _ & Hw). fold name in Hw.
  rewrite Hw. unfold compute.
  destruct (isEmpty (GetContent W name)) eqn:Hinline.
  - destruct Hsrc as [Hsrc|Hsrc]; [by apply isEmpty_false in Hsrc; congruence|].
    rewrite bind_run.
    destruct (filePath_run W [name] s) as (Hf & _ & Hwf & Hs). cbn [nameOf] in Hf.
    destruct (isEmpty (fst (filePath W [name] s))) eqn:He; [done|].
    apply isEmpty_false in He. rewrite (Hs He), Hf.
    apply loadAndWatch_unwatched. unfold gres_Contains.
    rewrite bool_decide_eq_true_2 by done. apply andb_false_r.
  - by apply loadAndWatch_unwatched.
Qed.

(** The inline [inline.json] and the bundled [app.json] are fetched
    without a watch. *)
Lemma inline_and_overlay_are_not_watched_witness :
  watches (snd (getJson mixedSources ["inline.json"] (Toy.fresh ["/a"]))) = []
  /\ watches (snd (getJson bundled ["app.json"] (Toy.fresh ["/a"]))) = [].
Proof.
  split.
  - apply (inline_and_overlay_are_not_watched mixedSources ["inline.json"]
             (Toy.fresh ["/a"])).
    left. vm_compute. discriminate.
  - apply (inline_and_overlay_are_not_watched bundled ["app.json"] (Toy.fresh ["/a"])).
    right. vm_compute. eexists. reflexivity.
Defined.

(** X10: when the content behind a resolved path does not parse, the fetch
    returns nil, the [Config] and the watches stay as they were, and the
    failure is written to the log at critical level, with the path and the
    parser's message, exactly when error printing is on. *)
Theorem rejected_file_is_reported
    (W : World) (file : list string) (s : Sys) (path err : string) :
  let name := nameOfNonEmpty (cfg s) file in
  jsonMap (cfg s) !! name = None ->
  GetContent W name = EmptyString ->
  fst (FilePath W [name] s) = path ->
  path <> EmptyString ->
  loadContent W name false (contentOf W path) = inr err ->
  let s' := snd (getJson W file s) in
  fst (getJson W file s) = None
  /\ cfg s' = cfg s
  /\ watches s' = watches s
  /\ logs s' =
       (logs s ++
          if errorPrint W
          then [mkLog LvCritical
                  ("[gcfg] Load config file " +:+ dquote +:+ path +:+ dquote
                     +:+ " failed: " +:+ err)]
          else [])%list.
Proof.
  intros name Hmiss Hinline Hpath Hne Hrej s'. subst s'.
  destruct (getJson_miss W file s Hmiss) as (Hfst & Hcfg & Hlogs & Hwatches).
  fold name in Hfst, Hcfg, Hlogs, Hwatches.
  assert (Hrun : compute W name s =
            (None,
             snd (when (errorPrint W)
                    (glog_Critical ("[gcfg] Load config file " +:+ dquote +:+ path
                                      +:+ dquote +:+ " failed: " +:+ err)) s))).
  { unfold compute. rewrite Hinline. cbn [isEmpty String.eqb]. rewrite bind_run.
    destruct (filePath_run W [name] s) as (Hf & _ & _ & Hs). cbn [nameOf] in Hf.
    rewrite Hpath in Hf. rewrite Hf in Hs |- *. rewrite (Hs Hne).
    apply isEmpty_false in Hne as He. rewrite He.
    unfold contentOf in Hrej. unfold loadAndWatch, bind, getCfg. rewrite Hrej.
    apply nonEmpty_true in Hne. rewrite Hne.
    by destruct (errorPrint W). }
  rewrite Hrun in Hfst, Hcfg, Hlogs, Hwatches. cbn [fst snd] in *.
  split; [done|]. split; [done|].
  rewrite Hlogs, Hwatches. unfold when, glog_Critical, writeLog, ret.
  destruct (errorPrint W); cbn; rewrite ?app_nil_r; done.
Qed.

(** The malformed [/a/app.json] is reported once. *)
Lemma rejected_file_is_reported_witness :
  fst (getJson malformed ["app.json"] (Toy.fresh ["/a"])) = None
  /\ length (logs (snd (getJson malformed ["app.json"] (Toy.fresh ["/a"])))) = 1.
Proof.
  destruct (rejected_file_is_reported malformed ["app.json"] (Toy.fresh ["/a"])
              "/a/app.json" "unexpected end of input")
    as (Hnil & _ & _ & Hlog).
  - reflexivity.
  - reflexivity.
  - vm_compute. reflexivity.
  - discriminate.
  - vm_compute. reflexivity.
  - split; [exact Hnil|]. rewrite Hlog. reflexivity.
Defined.

(** * The flag of the cached documents *)

Lemma parsed_vc (c : Config) (r : Json + string) (j : Json) :
  parsed c r = Some j -> vc j = violenceCheck c.
Proof. destruct r; cbn; [|done]. by intros [= <-]. Qed.

Lemma compute_vc (W : World) (name : string) (s : Sys) (j : Json) :
  fst (compute W name s) = Some j -> vc j = violenceCheck (cfg s).
Proof.
  rewrite compute_fst.
  destruct (isEmpty (GetContent W name)); [|apply parsed_vc].
  destruct (isEmpty (fst (filePath W [name] s))); [done|apply parsed_vc].
Qed.

Lemma loadAndWatch_watches (W : World) (name : string) (b : bool)
    (path content : string) (s : Sys) :
  watches (snd (loadAndWatch W name b path content s)) = watches s
  \/ watches (snd (loadAndWatch W name b path content s))
     = (watches s ++ [mkWatch path (evict name)])%list.
Proof.
  unfold loadAndWatch, bind, getCfg.
  destruct (loadContent W name b content) as [j|err].
  - destruct (nonEmpty path && negb (gres_Contains W path)); [|by left].
    destruct (gfsnotify_Add W path); [|by right].
    left. by destruct (errorPrint W).
  - left. destruct (errorPrint W); [|done]. by destruct (nonEmpty path).
Qed.

Lemma compute_watches (W : World) (name : string) (s : Sys) :
  watches (snd (compute W name s)) = watches s
  \/ exists path,
       watches (snd (compute W name s))
       = (watches s ++ [mkWatch path (evict name)])%list.
Proof.
  unfold compute. destruct (isEmpty (GetContent W name)).
  - rewrite bind_run.
    destruct (filePath_run W [name] s) as (_ & _ & Hw & _).
    destruct (isEmpty (fst (filePath W [name] s))); [by left|].
    destruct (loadAndWatch_watches W name false (fst (filePath W [name] s))
                (match gres_Get W (fst (filePath W [name] s)) with
                 | Some file => Content file
                 | None => gfile_GetContents W (fst (filePath W [name] s))
                 end) (snd (filePath W [name] s))) as [H|H];
      rewrite H, Hw; [by left|right; eauto].
  - destruct (loadAndWatch_watches W name true EmptyString (GetContent W name) s)
      as [H|H]; rewrite H; [by left|right; eauto].
Qed.

Lemma getJson_coherent (W : World) (file : list string) (s : Sys) :
  coherent s -> coherent (snd (getJson W file s)).
Proof.
  intros (Hflag & Hwf & Hev).
  destruct (jsonMap (cfg s) !! nameOfNonEmpty (cfg s) file) as [j0|] eqn:Hlook.
  { by rewrite (getJson_hit W file s j0 Hlook). }
  destruct (getJson_miss W file s Hlook) as (_ & Hcfg & _ & Hw).
  pose proof (compute_vc W (nameOfNonEmpty (cfg s) file) s) as Hvc.
  split; [|split].
  - rewrite Hcfg.
    destruct (fst (compute W (nameOfNonEmpty (cfg s) file) s)) as [j|]; [|done].
    intros name j'. cbn. rewrite lookup_insert_Some.
    intros [[_ <-]|[_ H]]; [by apply Hvc|by apply (Hflag name)].
  - rewrite Hcfg.
    by destruct (fst (compute W (nameOfNonEmpty (cfg s) file) s)).
  - intros w. rewrite Hw.
    destruct (compute_watches W (nameOfNonEmpty (cfg s) file) s) as [->|[path ->]].
    + apply Hev.
    + rewrite elem_of_app, list_elem_of_singleton. intros [H| ->]; [by apply Hev|].
      by eexists.
Qed.

Lemma runOp_coherent (W : World) (op : PathOp) (path : string) (s : Sys) :
  coherent s -> coherent (snd (runOp W op path s)).
Proof.
  intros (Hflag & Hwf & Hev).
  pose proof (runOp_wellFormed W op path s Hwf) as Hwf'.
  split; [|split; [exact Hwf'|]].
  - destruct op; cbn [runOp].
    + destruct (AddPath_cases W path s) as [(_&E&_)|[(E&_)|(_&_&_&_&E&_)]];
        rewrite E; done.
    + destruct (SetPath_cases W path s) as [(_&E&_)|[(E&_)|(_&_&_&_&E&_)]];
        rewrite E; done.
  - intros w. destruct op; cbn [runOp].
    + destruct (AddPath_cases W path s) as [(_&_&E&_)|[(E&_)|(_&_&_&_&_&E)]];
        rewrite E; apply Hev.
    + destruct (SetPath_cases W path s) as [(_&_&E&_)|[(E&_)|(_&_&_&_&_&E)]];
        rewrite E; apply Hev.
Qed.

Lemma runCall_coherent (W : World) (call : Call) (s : Sys) :
  coherent s -> coherent (runCall W call s).
Proof.
  intros Hco. destruct call; cbn [runCall].
  - apply (runOp_coherent W OpAddPath), Hco.
  - apply (runOp_coherent W OpSetPath), Hco.
  - destruct Hco as (_ & Hwf & Hev). split; [|split; [exact Hwf|exact Hev]].
    intros name j. cbn. by rewrite lookup_empty.
  - exact Hco.
  - by rewrite FilePath_resolve.
  - by rewrite Available_run.
  - by apply getJson_coherent.
  - destruct Hco as (Hflag & Hwf & Hev).
    destruct (fireEvent_run path s Hev) as (_ & Hw & _ & Hs & Hv & Hsub & _).
    split; [|split].
    + intros name j H. rewrite Hv. apply (Hflag name), Hsub, H.
    + by rewrite Hs.
    + intros w. rewrite Hw. apply Hev.
Qed.

(** X11: every document in the cache carries the violence-check flag of
    its [Config], the search path set has no empty and no duplicate entry,
    and every registered callback evicts one name: this holds for a new
    [Config] and is kept by every sequence of [AddPath], [SetPath],
    [SetViolenceCheck], [SetFileName], [FilePath], [Available], [getJson]
    and change events. *)
Theorem cached_documents_carry_the_flag (W : World) :
  (forall file s, evictingWatches s -> coherent (snd (New W file s)))
  /\ (forall calls s, coherent s -> coherent (runCalls W calls s)).
Proof.
  split.
  - intros file s Hev.
    unfold New. rewrite bind_run. cbv beta. rewrite bind_run. cbv beta.
    unfold getCfg at 1. cbn [snd].
    match goal with |- coherent (snd (?m ?s0)) =>
      cut (preserves coherent m);
        [intros Hm; apply Hm;
         split; [intros name j; cbn; by rewrite lookup_empty
                |split; [apply wellFormed_nil|exact Hev]]|]
    end.
    unfold glog_Error.
    repeat first
      [ (intros s1; apply (runOp_coherent W OpSetPath))
      | (intros s1; apply (runOp_coherent W OpAddPath))
      | apply preserves_ret | apply preserves_when
      | (apply preserves_writeLog; intros ? ? ?; assumption)
      | apply preserves_if | apply preserves_bind; [|intros ?] ].
  - intros calls. unfold runCalls.
    induction calls as [|call rest IH]; intros s Hco; cbn [fold_left]; [done|].
    apply IH. by apply runCall_coherent.
Qed.

(** A new [Config] under a mixed sequence of calls. *)
Lemma cached_documents_carry_the_flag_witness :
  coherent
    (runCalls Toy.plain
       [CallAddPath "/a"; CallGetJson ["app.json"]; CallSetViolenceCheck true;
        CallGetJson ["app.json"]; CallEvent "/a/app.json"; CallSetPath "/b";
        CallGetJson ["app.json"]]
       (snd (New Toy.plain [] (Toy.fresh []))))
  /\ jsonMap (cfg (runCalls Toy.plain
       [CallAddPath "/a"; CallGetJson ["app.json"]; CallSetViolenceCheck true;
        CallGetJson ["app.json"]; CallEvent "/a/app.json"; CallSetPath "/b";
        CallGetJson ["app.json"]]
       (snd (New Toy.plain [] (Toy.fresh []))))) !! "app.json"
     = Some {| p := JObj [("json", JStr "2")]; vc := true |}.
Proof.
  split; [|vm_compute; reflexivity].
  apply (proj2 (cached_documents_carry_the_flag Toy.plain)).
  apply (proj1 (cached_documents_carry_the_flag Toy.plain)).
  intros w Hw. by apply elem_of_nil in Hw.
Defined.

(** X12: [SetViolenceCheck] sets the flag and empties the document cache,
    keeping the search path set, the default file name, the log and the
    watches; every document fetched after it carries the new flag. *)
Theorem SetViolenceCheck_reloads_with_flag (W : World) (check : bool) (s : Sys) :
  let s' := snd (SetViolenceCheck check s) in
  violenceCheck (cfg s') = check
  /\ jsonMap (cfg s') = ∅
  /\ searchPaths (cfg s') = searchPaths (cfg s)
  /\ defaultName (cfg s') = defaultName (cfg s)
  /\ logs s' = logs s
  /\ watches s' = watches s
  /\ forall file j, fst (getJson W file s') = Some j -> vc j = check.
Proof.
  cbv zeta. unfold SetViolenceCheck, Clear. run. repeat split.
  intros file j Hdoc.
  match type of Hdoc with fst (getJson W file ?s1) = _ => set (s' := s1) in * end.
  destruct (getJson_miss W file s') as (Hfst & _); [apply lookup_empty|].
  rewrite Hdoc in Hfst. symmetry in Hfst. by apply compute_vc in Hfst.
Qed.

(** * Further properties of the configuration root *)

(** X13: after a [SetPath] that switches to a new directory, with an empty
    overlay and no other main package directory, [FilePath] searches that
    directory and its config subdirectory only: what the former search
    paths hold is no longer found. *)
Theorem SetPath_then_FilePath_searches_new_root
    (W : World) (path name : string) (s : Sys) :
  let realPath := fst (resolveDir W path (searchPaths (cfg s))) in
  fst (SetPath W path s) = None ->
  realPath ∉ searchPaths (cfg s) ->
  gres_IsEmpty W = true ->
  gfile_MainPkgPath W = EmptyString \/ gfile_MainPkgPath W = realPath ->
  fst (FilePath W [name] (snd (SetPath W path s)))
    = searchFileSystem W [realPath] name.
Proof.
  intros realPath Hok Hni Hempty Hmain. subst realPath.
  destruct (SetPath_cases W path s) as [(Herr&_)|[(_&_&_&Hin)|(_&_&_&_&E&_)]].
  - by destruct Herr.
  - by destruct Hni.
  - rewrite FilePath_resolve. cbn [fst nameOf]. rewrite E.
    rewrite getSearchPaths_plain.
    + cbn [searchPaths set_searchPaths]. unfold resolve. rewrite Hempty.
      by rewrite searchFileSystem_firstHit.
    + cbn [searchPaths set_searchPaths].
      destruct Hmain as [Hmain|Hmain]; [by left|right].
      rewrite Hmain. apply list_elem_of_singleton. reflexivity.
Qed.

(** After the switch from [/a] to [/pwd], the file of [/a] is not found any
    more. *)
Lemma SetPath_then_FilePath_searches_new_root_witness :
  fst (FilePath Toy.plain ["app.json"] (Toy.fresh ["/a"])) = "/a/app.json"
  /\ fst (FilePath Toy.plain ["app.json"]
            (snd (SetPath Toy.plain "/pwd" (Toy.fresh ["/a"])))) = EmptyString.
Proof.
  split; [vm_compute; reflexivity|].
  rewrite (SetPath_then_FilePath_searches_new_root Toy.plain "/pwd" "app.json"
             (Toy.fresh ["/a"])).
  - vm_compute. reflexivity.
  - vm_compute. reflexivity.
  - vm_compute. intros Hin. apply list_elem_of_singleton in Hin. discriminate.
  - reflexivity.
  - left. reflexivity.
Defined.

Lemma AddPath_resolved_is_added (W : World) (path : string) (s : Sys) :
  fst (resolveDir W path (searchPaths (cfg s))) <> EmptyString ->
  snd (resolveDir W path (searchPaths (cfg s))) = true ->
  fst (resolveDir W path (searchPaths (cfg s)))
    ∈ searchPaths (cfg (snd (AddPath W path s))).
Proof.
  intros Hne Hdir.
  destruct (AddPath_cases W path s) as [(_&_&_&Hbad)|[(E&_&_&Hin)|(_&_&_&_&E&_)]].
  - destruct Hbad as [Hbad|Hbad]; [done|]. rewrite Hdir in Hbad. discriminate.
  - by rewrite E.
  - rewrite E. cbn. rewrite elem_of_app, list_elem_of_singleton. by right.
Qed.

(** X14: without a custom path, the working directory is always among the
    search paths of a new [Config], provided that it is not an entry of the
    overlay and that its real path is a directory. *)
Theorem New_searches_working_directory (W : World) (file : list string) (s : Sys) :
  gcmd_GetOptWithEnv W (cmdEnvKey +:+ ".path") = EmptyString ->
  gres_Get W (gfile_Pwd W) = None ->
  gfile_RealPath W (gfile_Pwd W) <> EmptyString ->
  gfile_IsDir W (gfile_RealPath W (gfile_Pwd W)) = true ->
  gfile_RealPath W (gfile_Pwd W) ∈ searchPaths (fst (New W file s)).
Proof.
  intros Hcustom Hres Hreal Hdir.
  assert (Hpwd : forall array,
            resolveDir W (gfile_Pwd W) array = (gfile_RealPath W (gfile_Pwd W), true)).
  { intros array. unfold resolveDir. rewrite Hres.
    apply isEmpty_false in Hreal as He. rewrite He.
    apply nonEmpty_true in Hreal as Hn. by rewrite Hn, Hdir. }
  unfold New. rewrite bind_run. cbv beta. rewrite bind_run. cbv beta.
  unfold getCfg at 1. cbn [fst].
  apply nonEmpty_false in Hcustom. rewrite Hcustom.
  rewrite bind_run. cbv beta. rewrite bind_run. cbv beta.
  rewrite bind_run. unfold ret at 1. cbn [snd].
  match goal with |- context [AddPath W (gfile_Pwd W) ?s2] =>
    pose proof (AddPath_resolved_is_added W (gfile_Pwd W) s2) as Hadd;
    rewrite Hpwd in Hadd
  end.
  apply Hadd; [exact Hreal|reflexivity].
Qed.

(** The working directory [/pwd] of the two roots is searched. *)
Lemma New_searches_working_directory_witness :
  "/pwd" ∈ searchPaths (fst (New Toy.withMain [] (Toy.fresh []))).
Proof.
  apply (New_searches_working_directory Toy.withMain [] (Toy.fresh []));
    vm_compute; (reflexivity || discriminate).
Defined.

(** * The instance of main3.go *)

Lemma pickFileName_run (W : World) (key : string) (types : list string) (s : Sys) :
  snd (pickFileName W key types s) =
    match find (fun t => fst (Available W [key +:+ "." +:+ t] s)) types with
    | Some t => snd (SetFileName (key +:+ "." +:+ t) s)
    | None => s
    end.
Proof.
  induction types as [|t rest IH]; cbn [pickFileName find]; [done|].
  rewrite bind_run. rewrite Available_run at 2. cbn [snd].
  destruct (fst (Available W [key +:+ "." +:+ t] s)); [|exact IH].
  by rewrite bind_run.
Qed.

(** X15: [Instance] builds a new [Config], switches it to [./config/dev/]
    and makes the first available of key.toml, key.yaml, key.json, key.ini
    and key.xml the default file name, where key is the given name, or
    "config" when the name is absent or empty; when none is available the
    default file name of [New] stays.  It prints one line. *)
Theorem Instance_picks_first_available (W : World) (name : list string) (s : Sys) :
  let key :=
    match name with
    | n :: _ => if nonEmpty n then n else "config"
    | [] => "config"
    end in
  let s1 := snd (SetPath W "./config/dev/" (snd (New W [] s))) in
  let result := fst (Instance W name s) in
  fst result = ["8899"]
  /\ searchPaths (snd result) = searchPaths (cfg s1)
  /\ jsonMap (snd result) = jsonMap (cfg s1)
  /\ defaultName (snd result) =
       match find (fun t => fst (Available W [key +:+ "." +:+ t] s1))
               supportedFileTypes with
       | Some t => key +:+ "." +:+ t
       | None => defaultName (cfg s1)
       end.
Proof.
  intros key s1 result. subst result.
  unfold Instance. fold key.
  rewrite bind_run. cbv beta. rewrite bind_run. cbv beta. fold s1.
  rewrite bind_run. cbv beta. rewrite bind_run. cbv beta.
  unfold getCfg at 1, ret at 1. cbn [fst snd].
  rewrite pickFileName_run.
  destruct (find _ supportedFileTypes) as [t|]; done.
Qed.

(** With [proxy.yaml] and [proxy.xml] in [./config/dev/], the instance
    [proxy] reads [proxy.yaml]. *)
Example Instance_proxy :
  defaultName (snd (fst (Instance (devSetup "y") ["proxy"] (Toy.fresh []))))
    = "proxy.yaml".
Proof. vm_compute. reflexivity. Qed.

(** * The config subdirectory *)

(** X17: a file that is not directly in the first search directory but in
    its config subdirectory is resolved there, before any later search
    directory is looked at (the overlay being empty). *)
Theorem FilePath_config_subdirectory_before_next
    (W : World) (s : Sys) (name A : string) (rest : list string) :
  getSearchPaths W (cfg s) = A :: rest ->
  gres_IsEmpty W = true ->
  gspath_Search W (gstr_TrimRight W A "\/") name = EmptyString ->
  gspath_Search W (gstr_TrimRight W A "\/" +:+ gfile_Separator W +:+ "config") name
    <> EmptyString ->
  fst (FilePath W [name] s)
    = gspath_Search W (gstr_TrimRight W A "\/" +:+ gfile_Separator W +:+ "config") name.
Proof.
  intros Hdirs Hempty Hdirect Hconfig.
  rewrite FilePath_resolve. cbn [fst nameOf]. rewrite Hdirs.
  unfold resolve. rewrite Hempty, <- searchFileSystem_firstHit.
  cbn [searchFileSystem]. rewrite Hdirect. cbn [nonEmpty isEmpty String.eqb negb].
  apply nonEmpty_true in Hconfig. by rewrite Hconfig.
Qed.

(** [/a/config/app.json] is found although [/b/app.json] exists. *)
Lemma FilePath_config_subdirectory_before_next_witness :
  fst (FilePath configFirst ["app.json"] (Toy.fresh ["/a"; "/b"])) = "/a/config/app.json".
Proof.
  apply (FilePath_config_subdirectory_before_next configFirst (Toy.fresh ["/a"; "/b"])
           "app.json" "/a" ["/b"]).
  - reflexivity.
  - reflexivity.
  - vm_compute. reflexivity.
  - vm_compute. discriminate.
Defined.
